(** * Auralink: the persistence schema, the retrieval function and the
      dashboard's HTTP helpers

    The development follows the repository file by file:

    - the complete setup script (src/unnamed/part_004, the
      [app/supabase/sql/setup.sql] of the repository's documentation): six
      tables, their constraints, the [updated_at] trigger and the vector
      search function [match_chunks];
    - [src/schemas/db.sql], the earlier raw schema: module [DbSql];
    - the axios client (src/unnamed/part_002: [buildIndex], [summarize],
      [getSummary], [getUtterances], [askChat]): module [Api];
    - the fetch client (src/unnamed/part_006: [request], [buildIndex],
      [chat]) with the endpoints of its [config.js]: module [Client].

    The handler of POST /api/chat is not among the sources, which only call
    it; it is not modelled.

    SQL is embedded through its PostgreSQL meaning: a table is the list of
    its rows, a statement (an INSERT, an UPDATE by key or a DELETE on one
    of the six tables) is a function from a database to a [result], a
    constraint is a check that makes the statement fail.  JavaScript is
    embedded through its values: a settled promise is [fulfilled] or
    [rejected], a thrown error rejects.  The upload helpers ([ingest],
    [ingestFile]) send form data and take no part in what is proved here;
    they are left out. *)

From Stdlib Require Import String Ascii ZArith Bool Arith Lia.
From Stdlib Require Import DecimalString List Sorted Permutation.
Import ListNotations.
Set Warnings "-register-all".
Local Open Scope string_scope.
Local Open Scope list_scope.

(* ================================================================== *)
(** * SQL values, errors and constraint checks *)
(* ================================================================== *)

Definition uuid := string.
Definition bigint := Z.
Definition timestamptz := Z.

(** A value of type [jsonb]: a JSON document as PostgreSQL holds it once it
    has read it (text that is not JSON never becomes a value of the type).
    A number is the decimal [unscaled / 10 ^ scale]. *)
Inductive jsonb : Type :=
| jsonb_null
| jsonb_bool (b : bool)
| jsonb_number (unscaled : Z) (scale : nat)
| jsonb_string (s : string)
| jsonb_array (items : list jsonb)
| jsonb_object (members : list (string * jsonb)).

Definition uuid_eqb : uuid -> uuid -> bool := String.eqb.

(** The errors a statement of this schema can raise. *)
Inductive sql_error : Type :=
| dimension_mismatch (left_dim right_dim : nat)
| limit_must_not_be_negative
| not_null_violation (column : string)
| check_violation (constraint : string)
| foreign_key_violation (constraint : string)
| unique_violation (constraint : string).

Inductive result (A : Type) : Type :=
| Ok (value : A)
| Err (error : sql_error).

Arguments Ok {A} value.
Arguments Err {A} error.

Definition bind {A B : Type} (r : result A) (k : A -> result B) : result B :=
  match r with
  | Ok a => k a
  | Err e => Err e
  end.

Notation "x <- r ;; k" := (bind r (fun x => k))
  (at level 61, r at next level, right associativity).

Fixpoint map_result {A B : Type} (f : A -> result B) (l : list A)
  : result (list B) :=
  match l with
  | [] => Ok []
  | a :: l' => b <- f a ;; bs <- map_result f l' ;; Ok (b :: bs)
  end.

(** What an INSERT or an UPDATE says about one column: nothing (the column
    is left out of the statement) or a value, NULL included. *)
Inductive column_input (A : Type) : Type :=
| omitted
| supplied (value : option A).

Arguments omitted {A}.
Arguments supplied {A} value.

(** The value a column gets: the supplied one, else [fallback] (the DEFAULT
    of an INSERT, the old value of an UPDATE). *)
Definition resolve {A : Type} (fallback : option A) (i : column_input A)
  : option A :=
  match i with
  | omitted => fallback
  | supplied v => v
  end.

Definition not_null {A : Type} (column : string) (v : option A) : result A :=
  match v with
  | Some a => Ok a
  | None => Err (not_null_violation column)
  end.

(** [CHECK (col IN (...))] on a non-null text value. *)
Definition check_in (constraint : string) (allowed : list string) (v : string)
  : result unit :=
  if existsb (String.eqb v) allowed then Ok tt
  else Err (check_violation constraint).

Definition is_not_null {A : Type} (v : option A) : bool :=
  match v with
  | Some _ => true
  | None => false
  end.

(** Referential actions of a foreign key. *)
Inductive referential_action : Type :=
| no_action
| cascade.

(** What deleting the parent row [deleted] does to the referencing table. *)
Definition on_delete {row : Type} (action : referential_action)
  (constraint : string) (fk : row -> uuid) (deleted : uuid) (rows : list row)
  : result (list row) :=
  match action with
  | cascade => Ok (filter (fun r => negb (uuid_eqb (fk r) deleted)) rows)
  | no_action =>
      if existsb (fun r => uuid_eqb (fk r) deleted) rows
      then Err (foreign_key_violation constraint)
      else Ok rows
  end.

(** What changing the key of the parent row [old] does to a referencing
    table whose foreign key names no ON UPDATE action: the action is NO
    ACTION, and a row that still references [old] makes the statement
    fail. *)
Definition on_update_no_action {row : Type} (constraint : string)
  (fk : row -> uuid) (old : uuid) (rows : list row) : result unit :=
  if existsb (fun r => uuid_eqb (fk r) old) rows
  then Err (foreign_key_violation constraint)
  else Ok tt.

(* ================================================================== *)
(** * Numbers the database computes with *)
(* ================================================================== *)

(** [double precision] values, the elements of a pgvector [vector], and the
    operations the script uses on them.  The numeric kernel of pgvector's
    [<=>] operator is not part of the repository: it is a parameter. *)
Class PgNumeric : Type := {
  float4 : Type;
  float8 : Type;
  (** the order [ORDER BY] sorts [double precision] by *)
  float8_le : float8 -> float8 -> bool;
  (** [a - b] *)
  float8_mi : float8 -> float8 -> float8;
  (** the literal [1] *)
  float8_one : float8;
  (** cosine distance of two vectors of the same dimension *)
  vector_cosine : list float4 -> list float4 -> float8
}.

(** PostgreSQL sorts [double precision] by a total preorder (NaN last). *)
Class PgNumericOrder (N : PgNumeric) : Prop := {
  float8_le_total : forall a b : float8,
    float8_le a b = true \/ float8_le b a = true;
  float8_le_trans : forall a b c : float8,
    float8_le a b = true -> float8_le b c = true -> float8_le a c = true
}.

(** Exact integers in place of floating point, to run the model on concrete
    tables: vectors of integers, squared Euclidean distance as the kernel. *)
Fixpoint squared_distance (u v : list Z) : Z :=
  match u, v with
  | x :: u', y :: v' => (x - y) * (x - y) + squared_distance u' v'
  | _, _ => 0
  end.

#[global]
Instance integer_numeric : PgNumeric := {|
  float4 := Z;
  float8 := Z;
  float8_le := Z.leb;
  float8_mi := Z.sub;
  float8_one := 1%Z;
  vector_cosine := squared_distance
|}.

Section Schema.

Context {N : PgNumeric}.

Definition vector := list float4.

(** [a <=> b]: strict (NULL in, NULL out); pgvector refuses two vectors of
    different dimensions. *)
Definition cosine_distance (a b : option vector) : result (option float8) :=
  match a, b with
  | Some u, Some v =>
      if Nat.eqb (length u) (length v)
      then Ok (Some (vector_cosine u v))
      else Err (dimension_mismatch (length u) (length v))
  | _, _ => Ok None
  end.

(** [a - b] on nullable [double precision]. *)
Definition minus (a b : option float8) : option float8 :=
  match a, b with
  | Some x, Some y => Some (float8_mi x y)
  | _, _ => None
  end.

(** The order of [ORDER BY expr] (ascending, hence NULLS LAST). *)
Definition order_by_le (a b : option float8) : bool :=
  match a, b with
  | Some x, Some y => float8_le x y
  | Some _, None => true
  | None, Some _ => false
  | None, None => true
  end.

(** Sorting, as a stable insertion sort: one of the orders [ORDER BY] may
    produce (rows with equal keys come in no promised order). *)
Fixpoint insert_sorted {A : Type} (le : A -> A -> bool) (x : A) (l : list A)
  : list A :=
  match l with
  | [] => [x]
  | y :: l' => if le x y then x :: l else y :: insert_sorted le x l'
  end.

Definition order_by {A : Type} (le : A -> A -> bool) (l : list A) : list A :=
  fold_right (insert_sorted le) [] l.

(** [le a b] as a proposition. *)
Definition holds {A : Type} (le : A -> A -> bool) (a b : A) : Prop :=
  le a b = true.

(** [LIMIT n]: the number of rows kept; a negative count is an error,
    raised when the query starts, before any row is fetched. *)
Definition limit_count (n : Z) : result nat :=
  if (n <? 0)%Z then Err limit_must_not_be_negative
  else Ok (Z.to_nat n).

(* ================================================================== *)
(** * setup.sql: tables *)
(* ================================================================== *)

(** The dimension the script writes in [vector(3072)]. *)
Definition EMBEDDING_DIM : nat := 3072.

Record meetings_row : Type := {
  meetings_id : uuid;
  meetings_title : string;
  meetings_video_url : option string;
  meetings_consent : bool;
  meetings_status : string;
  meetings_created_at : timestamptz;
  meetings_updated_at : timestamptz
}.

Record files_row : Type := {
  files_id : bigint;
  files_meeting_id : uuid;
  files_path : string;
  files_public_url : option string;
  files_kind : string;
  files_size_bytes : option Z;
  files_mime_type : option string;
  files_created_at : timestamptz
}.

Record utterances_row : Type := {
  utterances_id : bigint;
  utterances_meeting_id : uuid;
  utterances_speaker : string;
  utterances_start_seconds : float8;
  utterances_end_seconds : float8;
  utterances_text : string;
  utterances_created_at : timestamptz
}.

Record chunks_row : Type := {
  chunks_id : bigint;
  chunks_meeting_id : uuid;
  chunks_speaker : option string;
  chunks_start_seconds : float8;
  chunks_end_seconds : float8;
  chunks_topic : option string;
  chunks_text : string;
  chunks_embedding : option vector;
  chunks_created_at : timestamptz
}.

Record summaries_row : Type := {
  summaries_meeting_id : uuid;
  summaries_payload : jsonb;
  summaries_created_at : timestamptz;
  summaries_updated_at : timestamptz
}.

Record asr_jobs_row : Type := {
  asr_jobs_id : string;
  asr_jobs_meeting_id : uuid;
  asr_jobs_provider : string;
  asr_jobs_callback_url : option string;
  asr_jobs_status : string;
  asr_jobs_error : option string;
  asr_jobs_raw : option jsonb;
  asr_jobs_created_at : timestamptz;
  asr_jobs_updated_at : timestamptz
}.

(** A database: the six tables and the three BIGSERIAL sequences. *)
Record database : Type := {
  meetings : list meetings_row;
  files : list files_row;
  utterances : list utterances_row;
  chunks : list chunks_row;
  summaries : list summaries_row;
  asr_jobs : list asr_jobs_row;
  files_id_seq : bigint;
  utterances_id_seq : bigint;
  chunks_id_seq : bigint
}.

Definition empty_database : database := {|
  meetings := [];
  files := [];
  utterances := [];
  chunks := [];
  summaries := [];
  asr_jobs := [];
  files_id_seq := 1%Z;
  utterances_id_seq := 1%Z;
  chunks_id_seq := 1%Z
|}.

(* ------------------------------------------------------------------ *)
(** ** Constraints, as the script declares them *)

Definition meetings_status_default : string := "uploaded".

Definition meetings_status_check : list string :=
  ["uploaded"; "asr_started"; "asr_done"; "indexed"; "summarized"; "error"].

Definition files_kind_check : list string :=
  ["upload"; "narration"; "summary"; "other"].

Definition asr_jobs_status_default : string := "queued".

Definition asr_jobs_status_check : list string :=
  ["queued"; "processing"; "completed"; "error"].

(** [REFERENCES meetings(id) ON DELETE CASCADE], once per dependent table. *)
Definition files_meeting_id_fkey : referential_action := cascade.
Definition utterances_meeting_id_fkey : referential_action := cascade.
Definition chunks_meeting_id_fkey : referential_action := cascade.
Definition summaries_meeting_id_fkey : referential_action := cascade.
Definition asr_jobs_meeting_id_fkey : referential_action := cascade.

(** The declared type of [chunks.embedding] and of the [query_embedding]
    parameter of [match_chunks]. *)
Definition chunks_embedding_dim : nat := EMBEDDING_DIM.
Definition match_chunks_query_embedding_dim : nat := EMBEDDING_DIM.

(** Storing into a [vector(n)] column: NULL is kept, a vector of another
    dimension is refused. *)
Definition store_vector (n : nat) (v : option vector)
  : result (option vector) :=
  match v with
  | None => Ok None
  | Some u =>
      if Nat.eqb (length u) n then Ok (Some u)
      else Err (dimension_mismatch n (length u))
  end.

Definition meeting_exists (db : database) (id : uuid) : bool :=
  existsb (fun m => uuid_eqb (meetings_id m) id) (meetings db).

(** The foreign key of a dependent row: its meeting must exist. *)
Definition references_meeting (constraint : string) (db : database) (id : uuid)
  : result unit :=
  if meeting_exists db id then Ok tt
  else Err (foreign_key_violation constraint).

(** The foreign key of a referencing table at the end of an UPDATE that
    assigns [new] to the referencing column: the meeting is looked up when
    a selected row got another meeting than it had. *)
Definition references_after_update {row : Type} (constraint : string)
  (db : database) (selected : row -> bool) (fk : row -> uuid)
  (new : column_input uuid) (rows : list row) : result unit :=
  match new with
  | supplied (Some m) =>
      if existsb (fun r => selected r && negb (uuid_eqb (fk r) m)) rows
      then references_meeting constraint db m
      else Ok tt
  | _ => Ok tt
  end.

(** The type of a value assigned to a [vector(n)] column is checked once,
    when the statement starts, whether or not a row is selected. *)
Definition assign_vector (n : nat) (i : column_input vector) : result unit :=
  match i with
  | omitted => Ok tt
  | supplied v => _ <- store_vector n v ;; Ok tt
  end.

(* ------------------------------------------------------------------ *)
(** ** Statements

    One INSERT, one UPDATE and one DELETE per table.  An INSERT leaves the
    generated columns (a BIGSERIAL key, [created_at], [updated_at]) to
    their defaults; an UPDATE selects its rows by the primary key and may
    assign every column but a BIGSERIAL key, which only its sequence
    writes; a DELETE of a dependent table selects its rows by any condition
    on the row.  The script declares no ON UPDATE action, so a meeting that
    is referenced cannot change its key. *)

(** [INSERT INTO meetings]: [id] is the key (given, or drawn by
    [uuid_generate_v4()]); [now] is [NOW()]. *)
Definition insert_meetings (now : timestamptz) (id : uuid)
  (title : option string) (video_url : option string)
  (consent : column_input bool) (status : column_input string)
  (db : database) : result database :=
  title' <- not_null "title" title ;;
  consent' <- not_null "consent" (resolve (Some false) consent) ;;
  status' <- not_null "status"
               (resolve (Some meetings_status_default) status) ;;
  _ <- check_in "meetings_status_check" meetings_status_check status' ;;
  if meeting_exists db id then Err (unique_violation "meetings_pkey")
  else
    Ok {| meetings := meetings db ++
            [{| meetings_id := id;
                meetings_title := title';
                meetings_video_url := video_url;
                meetings_consent := consent';
                meetings_status := status';
                meetings_created_at := now;
                meetings_updated_at := now |}];
          files := files db;
          utterances := utterances db;
          chunks := chunks db;
          summaries := summaries db;
          asr_jobs := asr_jobs db;
          files_id_seq := files_id_seq db;
          utterances_id_seq := utterances_id_seq db;
          chunks_id_seq := chunks_id_seq db |}.

(** The columns an [UPDATE meetings SET ...] may assign: all of them. *)
Record meetings_assignment : Type := {
  set_id : column_input uuid;
  set_title : column_input string;
  set_video_url : column_input string;
  set_consent : column_input bool;
  set_status : column_input string;
  set_created_at : column_input timestamptz;
  set_updated_at : column_input timestamptz
}.

(** One row through [UPDATE meetings]: the assignments, then the trigger
    [update_meetings_updated_at] (BEFORE UPDATE: [NEW.updated_at = NOW()]),
    then the constraints.  What the statement assigns to [updated_at], NULL
    included, is replaced by the trigger before any constraint is
    checked: [set_updated_at] is not read. *)
Definition update_meetings_row (now : timestamptz) (a : meetings_assignment)
  (old : meetings_row) : result meetings_row :=
  id' <- not_null "id" (resolve (Some (meetings_id old)) (set_id a)) ;;
  title' <- not_null "title"
              (resolve (Some (meetings_title old)) (set_title a)) ;;
  consent' <- not_null "consent"
                (resolve (Some (meetings_consent old)) (set_consent a)) ;;
  status' <- not_null "status"
               (resolve (Some (meetings_status old)) (set_status a)) ;;
  created_at' <- not_null "created_at"
                   (resolve (Some (meetings_created_at old))
                            (set_created_at a)) ;;
  _ <- check_in "meetings_status_check" meetings_status_check status' ;;
  Ok {| meetings_id := id';
        meetings_title := title';
        meetings_video_url :=
          resolve (meetings_video_url old) (set_video_url a);
        meetings_consent := consent';
        meetings_status := status';
        meetings_created_at := created_at';
        meetings_updated_at := now |}.

(** The key [UPDATE meetings ... WHERE id = id] gives to the row it
    selects, when the statement changes the key of a row. *)
Definition meetings_new_key (id : uuid) (a : meetings_assignment)
  (db : database) : option uuid :=
  match set_id a with
  | supplied (Some new) =>
      if meeting_exists db id && negb (uuid_eqb new id) then Some new
      else None
  | _ => None
  end.

(** [UPDATE meetings SET ... WHERE id = id].  A changed key must be free
    ([meetings_pkey]), and at the end of the statement no row of the five
    dependent tables may be left referencing the old key. *)
Definition update_meetings (now : timestamptz) (id : uuid)
  (a : meetings_assignment) (db : database) : result database :=
  rows <- map_result
            (fun m => if uuid_eqb (meetings_id m) id
                      then update_meetings_row now a m else Ok m)
            (meetings db) ;;
  _ <- match meetings_new_key id a db with
       | Some new =>
           if meeting_exists db new then Err (unique_violation "meetings_pkey")
           else
             _ <- on_update_no_action "files_meeting_id_fkey"
                    files_meeting_id id (files db) ;;
             _ <- on_update_no_action "utterances_meeting_id_fkey"
                    utterances_meeting_id id (utterances db) ;;
             _ <- on_update_no_action "chunks_meeting_id_fkey"
                    chunks_meeting_id id (chunks db) ;;
             _ <- on_update_no_action "summaries_meeting_id_fkey"
                    summaries_meeting_id id (summaries db) ;;
             on_update_no_action "asr_jobs_meeting_id_fkey"
               asr_jobs_meeting_id id (asr_jobs db)
       | None => Ok tt
       end ;;
  Ok {| meetings := rows;
        files := files db;
        utterances := utterances db;
        chunks := chunks db;
        summaries := summaries db;
        asr_jobs := asr_jobs db;
        files_id_seq := files_id_seq db;
        utterances_id_seq := utterances_id_seq db;
        chunks_id_seq := chunks_id_seq db |}.

(** [DELETE FROM meetings WHERE id = id]: each referencing table reacts as
    its foreign key says, in the same statement. *)
Definition delete_meetings (id : uuid) (db : database) : result database :=
  if meeting_exists db id then
    files' <- on_delete files_meeting_id_fkey "files_meeting_id_fkey"
                files_meeting_id id (files db) ;;
    utterances' <- on_delete utterances_meeting_id_fkey
                     "utterances_meeting_id_fkey"
                     utterances_meeting_id id (utterances db) ;;
    chunks' <- on_delete chunks_meeting_id_fkey "chunks_meeting_id_fkey"
                 chunks_meeting_id id (chunks db) ;;
    summaries' <- on_delete summaries_meeting_id_fkey
                    "summaries_meeting_id_fkey"
                    summaries_meeting_id id (summaries db) ;;
    asr_jobs' <- on_delete asr_jobs_meeting_id_fkey "asr_jobs_meeting_id_fkey"
                   asr_jobs_meeting_id id (asr_jobs db) ;;
    Ok {| meetings :=
            filter (fun m => negb (uuid_eqb (meetings_id m) id)) (meetings db);
          files := files';
          utterances := utterances';
          chunks := chunks';
          summaries := summaries';
          asr_jobs := asr_jobs';
          files_id_seq := files_id_seq db;
          utterances_id_seq := utterances_id_seq db;
          chunks_id_seq := chunks_id_seq db |}
  else Ok db.

(** [INSERT INTO files]. *)
Definition insert_files (now : timestamptz) (meeting_id : option uuid)
  (path : option string) (public_url : option string) (kind : option string)
  (size_bytes : option Z) (mime_type : option string)
  (db : database) : result database :=
  meeting_id' <- not_null "meeting_id" meeting_id ;;
  path' <- not_null "path" path ;;
  kind' <- not_null "kind" kind ;;
  _ <- check_in "files_kind_check" files_kind_check kind' ;;
  _ <- references_meeting "files_meeting_id_fkey" db meeting_id' ;;
  Ok {| meetings := meetings db;
        files := files db ++
          [{| files_id := files_id_seq db;
              files_meeting_id := meeting_id';
              files_path := path';
              files_public_url := public_url;
              files_kind := kind';
              files_size_bytes := size_bytes;
              files_mime_type := mime_type;
              files_created_at := now |}];
        utterances := utterances db;
        chunks := chunks db;
        summaries := summaries db;
        asr_jobs := asr_jobs db;
        files_id_seq := (files_id_seq db + 1)%Z;
        utterances_id_seq := utterances_id_seq db;
        chunks_id_seq := chunks_id_seq db |}.

(** The columns an [UPDATE files SET ...] may assign. *)
Record files_assignment : Type := {
  set_files_meeting_id : column_input uuid;
  set_files_path : column_input string;
  set_files_public_url : column_input string;
  set_files_kind : column_input string;
  set_files_size_bytes : column_input Z;
  set_files_mime_type : column_input string;
  set_files_created_at : column_input timestamptz
}.

Definition update_files_row (a : files_assignment) (old : files_row)
  : result files_row :=
  meeting_id' <- not_null "meeting_id"
                   (resolve (Some (files_meeting_id old))
                            (set_files_meeting_id a)) ;;
  path' <- not_null "path" (resolve (Some (files_path old)) (set_files_path a)) ;;
  kind' <- not_null "kind" (resolve (Some (files_kind old)) (set_files_kind a)) ;;
  created_at' <- not_null "created_at"
                   (resolve (Some (files_created_at old))
                            (set_files_created_at a)) ;;
  _ <- check_in "files_kind_check" files_kind_check kind' ;;
  Ok {| files_id := files_id old;
        files_meeting_id := meeting_id';
        files_path := path';
        files_public_url :=
          resolve (files_public_url old) (set_files_public_url a);
        files_kind := kind';
        files_size_bytes :=
          resolve (files_size_bytes old) (set_files_size_bytes a);
        files_mime_type :=
          resolve (files_mime_type old) (set_files_mime_type a);
        files_created_at := created_at' |}.

(** [UPDATE files SET ... WHERE id = id]. *)
Definition update_files (id : bigint) (a : files_assignment) (db : database)
  : result database :=
  rows <- map_result
            (fun r => if (files_id r =? id)%Z then update_files_row a r
                      else Ok r)
            (files db) ;;
  _ <- references_after_update "files_meeting_id_fkey" db
         (fun r => (files_id r =? id)%Z) files_meeting_id
         (set_files_meeting_id a) (files db) ;;
  Ok {| meetings := meetings db;
        files := rows;
        utterances := utterances db;
        chunks := chunks db;
        summaries := summaries db;
        asr_jobs := asr_jobs db;
        files_id_seq := files_id_seq db;
        utterances_id_seq := utterances_id_seq db;
        chunks_id_seq := chunks_id_seq db |}.

(** [DELETE FROM files WHERE condition]. *)
Definition delete_files (condition : files_row -> bool) (db : database)
  : result database :=
  Ok {| meetings := meetings db;
        files := filter (fun r => negb (condition r)) (files db);
        utterances := utterances db;
        chunks := chunks db;
        summaries := summaries db;
        asr_jobs := asr_jobs db;
        files_id_seq := files_id_seq db;
        utterances_id_seq := utterances_id_seq db;
        chunks_id_seq := chunks_id_seq db |}.

(** [INSERT INTO utterances]. *)
Definition insert_utterances (now : timestamptz) (meeting_id : option uuid)
  (speaker : option string) (start_seconds end_seconds : option float8)
  (text : option string) (db : database) : result database :=
  meeting_id' <- not_null "meeting_id" meeting_id ;;
  speaker' <- not_null "speaker" speaker ;;
  start' <- not_null "start_seconds" start_seconds ;;
  end' <- not_null "end_seconds" end_seconds ;;
  text' <- not_null "text" text ;;
  _ <- references_meeting "utterances_meeting_id_fkey" db meeting_id' ;;
  Ok {| meetings := meetings db;
        files := files db;
        utterances := utterances db ++
          [{| utterances_id := utterances_id_seq db;
              utterances_meeting_id := meeting_id';
              utterances_speaker := speaker';
              utterances_start_seconds := start';
              utterances_end_seconds := end';
              utterances_text := text';
              utterances_created_at := now |}];
        chunks := chunks db;
        summaries := summaries db;
        asr_jobs := asr_jobs db;
        files_id_seq := files_id_seq db;
        utterances_id_seq := (utterances_id_seq db + 1)%Z;
        chunks_id_seq := chunks_id_seq db |}.

(** The columns an [UPDATE utterances SET ...] may assign. *)
Record utterances_assignment : Type := {
  set_utterances_meeting_id : column_input uuid;
  set_utterances_speaker : column_input string;
  set_utterances_start_seconds : column_input float8;
  set_utterances_end_seconds : column_input float8;
  set_utterances_text : column_input string;
  set_utterances_created_at : column_input timestamptz
}.

Definition update_utterances_row (a : utterances_assignment)
  (old : utterances_row) : result utterances_row :=
  meeting_id' <- not_null "meeting_id"
                   (resolve (Some (utterances_meeting_id old))
                            (set_utterances_meeting_id a)) ;;
  speaker' <- not_null "speaker"
                (resolve (Some (utterances_speaker old))
                         (set_utterances_speaker a)) ;;
  start' <- not_null "start_seconds"
              (resolve (Some (utterances_start_seconds old))
                       (set_utterances_start_seconds a)) ;;
  end' <- not_null "end_seconds"
            (resolve (Some (utterances_end_seconds old))
                     (set_utterances_end_seconds a)) ;;
  text' <- not_null "text"
             (resolve (Some (utterances_text old)) (set_utterances_text a)) ;;
  created_at' <- not_null "created_at"
                   (resolve (Some (utterances_created_at old))
                            (set_utterances_created_at a)) ;;
  Ok {| utterances_id := utterances_id old;
        utterances_meeting_id := meeting_id';
        utterances_speaker := speaker';
        utterances_start_seconds := start';
        utterances_end_seconds := end';
        utterances_text := text';
        utterances_created_at := created_at' |}.

(** [UPDATE utterances SET ... WHERE id = id]. *)
Definition update_utterances (id : bigint) (a : utterances_assignment)
  (db : database) : result database :=
  rows <- map_result
            (fun r => if (utterances_id r =? id)%Z
                      then update_utterances_row a r else Ok r)
            (utterances db) ;;
  _ <- references_after_update "utterances_meeting_id_fkey" db
         (fun r => (utterances_id r =? id)%Z) utterances_meeting_id
         (set_utterances_meeting_id a) (utterances db) ;;
  Ok {| meetings := meetings db;
        files := files db;
        utterances := rows;
        chunks := chunks db;
        summaries := summaries db;
        asr_jobs := asr_jobs db;
        files_id_seq := files_id_seq db;
        utterances_id_seq := utterances_id_seq db;
        chunks_id_seq := chunks_id_seq db |}.

(** [DELETE FROM utterances WHERE condition]. *)
Definition delete_utterances (condition : utterances_row -> bool)
  (db : database) : result database :=
  Ok {| meetings := meetings db;
        files := files db;
        utterances := filter (fun r => negb (condition r)) (utterances db);
        chunks := chunks db;
        summaries := summaries db;
        asr_jobs := asr_jobs db;
        files_id_seq := files_id_seq db;
        utterances_id_seq := utterances_id_seq db;
        chunks_id_seq := chunks_id_seq db |}.

(** [INSERT INTO chunks]: the embedding goes through the column's type. *)
Definition insert_chunks (now : timestamptz) (meeting_id : option uuid)
  (speaker : option string) (start_seconds end_seconds : option float8)
  (topic : option string) (text : option string) (embedding : option vector)
  (db : database) : result database :=
  embedding' <- store_vector chunks_embedding_dim embedding ;;
  meeting_id' <- not_null "meeting_id" meeting_id ;;
  start' <- not_null "start_seconds" start_seconds ;;
  end' <- not_null "end_seconds" end_seconds ;;
  text' <- not_null "text" text ;;
  _ <- references_meeting "chunks_meeting_id_fkey" db meeting_id' ;;
  Ok {| meetings := meetings db;
        files := files db;
        utterances := utterances db;
        chunks := chunks db ++
          [{| chunks_id := chunks_id_seq db;
              chunks_meeting_id := meeting_id';
              chunks_speaker := speaker;
              chunks_start_seconds := start';
              chunks_end_seconds := end';
              chunks_topic := topic;
              chunks_text := text';
              chunks_embedding := embedding';
              chunks_created_at := now |}];
        summaries := summaries db;
        asr_jobs := asr_jobs db;
        files_id_seq := files_id_seq db;
        utterances_id_seq := utterances_id_seq db;
        chunks_id_seq := (chunks_id_seq db + 1)%Z |}.

(** The columns an [UPDATE chunks SET ...] may assign. *)
Record chunks_assignment : Type := {
  set_chunks_meeting_id : column_input uuid;
  set_chunks_speaker : column_input string;
  set_chunks_start_seconds : column_input float8;
  set_chunks_end_seconds : column_input float8;
  set_chunks_topic : column_input string;
  set_chunks_text : column_input string;
  set_chunks_embedding : column_input vector;
  set_chunks_created_at : column_input timestamptz
}.

Definition update_chunks_row (a : chunks_assignment) (old : chunks_row)
  : result chunks_row :=
  meeting_id' <- not_null "meeting_id"
                   (resolve (Some (chunks_meeting_id old))
                            (set_chunks_meeting_id a)) ;;
  start' <- not_null "start_seconds"
              (resolve (Some (chunks_start_seconds old))
                       (set_chunks_start_seconds a)) ;;
  end' <- not_null "end_seconds"
            (resolve (Some (chunks_end_seconds old))
                     (set_chunks_end_seconds a)) ;;
  text' <- not_null "text"
             (resolve (Some (chunks_text old)) (set_chunks_text a)) ;;
  created_at' <- not_null "created_at"
                   (resolve (Some (chunks_created_at old))
                            (set_chunks_created_at a)) ;;
  Ok {| chunks_id := chunks_id old;
        chunks_meeting_id := meeting_id';
        chunks_speaker := resolve (chunks_speaker old) (set_chunks_speaker a);
        chunks_start_seconds := start';
        chunks_end_seconds := end';
        chunks_topic := resolve (chunks_topic old) (set_chunks_topic a);
        chunks_text := text';
        chunks_embedding :=
          resolve (chunks_embedding old) (set_chunks_embedding a);
        chunks_created_at := created_at' |}.

(** [UPDATE chunks SET ... WHERE id = id]: an assigned embedding goes
    through the column's type first. *)
Definition update_chunks (id : bigint) (a : chunks_assignment) (db : database)
  : result database :=
  _ <- assign_vector chunks_embedding_dim (set_chunks_embedding a) ;;
  rows <- map_result
            (fun c => if (chunks_id c =? id)%Z then update_chunks_row a c
                      else Ok c)
            (chunks db) ;;
  _ <- references_after_update "chunks_meeting_id_fkey" db
         (fun c => (chunks_id c =? id)%Z) chunks_meeting_id
         (set_chunks_meeting_id a) (chunks db) ;;
  Ok {| meetings := meetings db;
        files := files db;
        utterances := utterances db;
        chunks := rows;
        summaries := summaries db;
        asr_jobs := asr_jobs db;
        files_id_seq := files_id_seq db;
        utterances_id_seq := utterances_id_seq db;
        chunks_id_seq := chunks_id_seq db |}.

(** [DELETE FROM chunks WHERE condition]. *)
Definition delete_chunks (condition : chunks_row -> bool) (db : database)
  : result database :=
  Ok {| meetings := meetings db;
        files := files db;
        utterances := utterances db;
        chunks := filter (fun c => negb (condition c)) (chunks db);
        summaries := summaries db;
        asr_jobs := asr_jobs db;
        files_id_seq := files_id_seq db;
        utterances_id_seq := utterances_id_seq db;
        chunks_id_seq := chunks_id_seq db |}.

Definition summary_exists (db : database) (meeting_id : uuid) : bool :=
  existsb (fun s => uuid_eqb (summaries_meeting_id s) meeting_id)
          (summaries db).

(** [INSERT INTO summaries]: [meeting_id] is the primary key, one summary
    per meeting. *)
Definition insert_summaries (now : timestamptz) (meeting_id : option uuid)
  (payload : option jsonb) (db : database) : result database :=
  meeting_id' <- not_null "meeting_id" meeting_id ;;
  payload' <- not_null "payload" payload ;;
  if summary_exists db meeting_id' then Err (unique_violation "summaries_pkey")
  else
    _ <- references_meeting "summaries_meeting_id_fkey" db meeting_id' ;;
    Ok {| meetings := meetings db;
          files := files db;
          utterances := utterances db;
          chunks := chunks db;
          summaries := summaries db ++
            [{| summaries_meeting_id := meeting_id';
                summaries_payload := payload';
                summaries_created_at := now;
                summaries_updated_at := now |}];
          asr_jobs := asr_jobs db;
          files_id_seq := files_id_seq db;
          utterances_id_seq := utterances_id_seq db;
          chunks_id_seq := chunks_id_seq db |}.

(** The columns an [UPDATE summaries SET ...] may assign. *)
Record summaries_assignment : Type := {
  set_summaries_meeting_id : column_input uuid;
  set_summaries_payload : column_input jsonb;
  set_summaries_created_at : column_input timestamptz;
  set_summaries_updated_at : column_input timestamptz
}.

(** One row through [UPDATE summaries]: the assignments, then the trigger
    [update_summaries_updated_at], then the constraints;
    [set_summaries_updated_at] is not read. *)
Definition update_summaries_row (now : timestamptz) (a : summaries_assignment)
  (old : summaries_row) : result summaries_row :=
  meeting_id' <- not_null "meeting_id"
                   (resolve (Some (summaries_meeting_id old))
                            (set_summaries_meeting_id a)) ;;
  payload' <- not_null "payload"
                (resolve (Some (summaries_payload old))
                         (set_summaries_payload a)) ;;
  created_at' <- not_null "created_at"
                   (resolve (Some (summaries_created_at old))
                            (set_summaries_created_at a)) ;;
  Ok {| summaries_meeting_id := meeting_id';
        summaries_payload := payload';
        summaries_created_at := created_at';
        summaries_updated_at := now |}.

(** [UPDATE summaries SET ... WHERE meeting_id = meeting_id]: a changed key
    must be free ([summaries_pkey]) and name a meeting. *)
Definition update_summaries (now : timestamptz) (meeting_id : uuid)
  (a : summaries_assignment) (db : database) : result database :=
  rows <- map_result
            (fun s => if uuid_eqb (summaries_meeting_id s) meeting_id
                      then update_summaries_row now a s else Ok s)
            (summaries db) ;;
  _ <- match set_summaries_meeting_id a with
       | supplied (Some new) =>
           if summary_exists db meeting_id && negb (uuid_eqb new meeting_id)
           then
             if summary_exists db new
             then Err (unique_violation "summaries_pkey")
             else references_meeting "summaries_meeting_id_fkey" db new
           else Ok tt
       | _ => Ok tt
       end ;;
  Ok {| meetings := meetings db;
        files := files db;
        utterances := utterances db;
        chunks := chunks db;
        summaries := rows;
        asr_jobs := asr_jobs db;
        files_id_seq := files_id_seq db;
        utterances_id_seq := utterances_id_seq db;
        chunks_id_seq := chunks_id_seq db |}.

(** [DELETE FROM summaries WHERE condition]. *)
Definition delete_summaries (condition : summaries_row -> bool)
  (db : database) : result database :=
  Ok {| meetings := meetings db;
        files := files db;
        utterances := utterances db;
        chunks := chunks db;
        summaries := filter (fun r => negb (condition r)) (summaries db);
        asr_jobs := asr_jobs db;
        files_id_seq := files_id_seq db;
        utterances_id_seq := utterances_id_seq db;
        chunks_id_seq := chunks_id_seq db |}.

(** [INSERT INTO asr_jobs]. *)
Definition insert_asr_jobs (now : timestamptz) (id : option string)
  (meeting_id : option uuid) (provider : option string)
  (callback_url : option string) (status : column_input string)
  (error : option string) (raw : option jsonb)
  (db : database) : result database :=
  id' <- not_null "id" id ;;
  meeting_id' <- not_null "meeting_id" meeting_id ;;
  provider' <- not_null "provider" provider ;;
  status' <- not_null "status"
               (resolve (Some asr_jobs_status_default) status) ;;
  _ <- check_in "asr_jobs_status_check" asr_jobs_status_check status' ;;
  if existsb (fun j => String.eqb (asr_jobs_id j) id') (asr_jobs db)
  then Err (unique_violation "asr_jobs_pkey")
  else
    _ <- references_meeting "asr_jobs_meeting_id_fkey" db meeting_id' ;;
    Ok {| meetings := meetings db;
          files := files db;
          utterances := utterances db;
          chunks := chunks db;
          summaries := summaries db;
          asr_jobs := asr_jobs db ++
            [{| asr_jobs_id := id';
                asr_jobs_meeting_id := meeting_id';
                asr_jobs_provider := provider';
                asr_jobs_callback_url := callback_url;
                asr_jobs_status := status';
                asr_jobs_error := error;
                asr_jobs_raw := raw;
                asr_jobs_created_at := now;
                asr_jobs_updated_at := now |}];
          files_id_seq := files_id_seq db;
          utterances_id_seq := utterances_id_seq db;
          chunks_id_seq := chunks_id_seq db |}.

Definition asr_job_exists (db : database) (id : string) : bool :=
  existsb (fun j => String.eqb (asr_jobs_id j) id) (asr_jobs db).

(** The columns an [UPDATE asr_jobs SET ...] may assign. *)
Record asr_jobs_assignment : Type := {
  set_asr_jobs_id : column_input string;
  set_asr_jobs_meeting_id : column_input uuid;
  set_asr_jobs_provider : column_input string;
  set_asr_jobs_callback_url : column_input string;
  set_asr_jobs_status : column_input string;
  set_asr_jobs_error : column_input string;
  set_asr_jobs_raw : column_input jsonb;
  set_asr_jobs_created_at : column_input timestamptz;
  set_asr_jobs_updated_at : column_input timestamptz
}.

(** One row through [UPDATE asr_jobs]: the assignments, then the trigger
    [update_asr_jobs_updated_at], then the constraints;
    [set_asr_jobs_updated_at] is not read. *)
Definition update_asr_jobs_row (now : timestamptz) (a : asr_jobs_assignment)
  (old : asr_jobs_row) : result asr_jobs_row :=
  id' <- not_null "id" (resolve (Some (asr_jobs_id old)) (set_asr_jobs_id a)) ;;
  meeting_id' <- not_null "meeting_id"
                   (resolve (Some (asr_jobs_meeting_id old))
                            (set_asr_jobs_meeting_id a)) ;;
  provider' <- not_null "provider"
                 (resolve (Some (asr_jobs_provider old))
                          (set_asr_jobs_provider a)) ;;
  status' <- not_null "status"
               (resolve (Some (asr_jobs_status old))
                        (set_asr_jobs_status a)) ;;
  created_at' <- not_null "created_at"
                   (resolve (Some (asr_jobs_created_at old))
                            (set_asr_jobs_created_at a)) ;;
  _ <- check_in "asr_jobs_status_check" asr_jobs_status_check status' ;;
  Ok {| asr_jobs_id := id';
        asr_jobs_meeting_id := meeting_id';
        asr_jobs_provider := provider';
        asr_jobs_callback_url :=
          resolve (asr_jobs_callback_url old) (set_asr_jobs_callback_url a);
        asr_jobs_status := status';
        asr_jobs_error := resolve (asr_jobs_error old) (set_asr_jobs_error a);
        asr_jobs_raw := resolve (asr_jobs_raw old) (set_asr_jobs_raw a);
        asr_jobs_created_at := created_at';
        asr_jobs_updated_at := now |}.

(** [UPDATE asr_jobs SET ... WHERE id = id]: a changed key must be free
    ([asr_jobs_pkey]). *)
Definition update_asr_jobs (now : timestamptz) (id : string)
  (a : asr_jobs_assignment) (db : database) : result database :=
  rows <- map_result
            (fun j => if String.eqb (asr_jobs_id j) id
                      then update_asr_jobs_row now a j else Ok j)
            (asr_jobs db) ;;
  _ <- match set_asr_jobs_id a with
       | supplied (Some new) =>
           if asr_job_exists db id && negb (String.eqb new id)
              && asr_job_exists db new
           then Err (unique_violation "asr_jobs_pkey")
           else Ok tt
       | _ => Ok tt
       end ;;
  _ <- references_after_update "asr_jobs_meeting_id_fkey" db
         (fun j => String.eqb (asr_jobs_id j) id) asr_jobs_meeting_id
         (set_asr_jobs_meeting_id a) (asr_jobs db) ;;
  Ok {| meetings := meetings db;
        files := files db;
        utterances := utterances db;
        chunks := chunks db;
        summaries := summaries db;
        asr_jobs := rows;
        files_id_seq := files_id_seq db;
        utterances_id_seq := utterances_id_seq db;
        chunks_id_seq := chunks_id_seq db |}.

(** [DELETE FROM asr_jobs WHERE condition]. *)
Definition delete_asr_jobs (condition : asr_jobs_row -> bool) (db : database)
  : result database :=
  Ok {| meetings := meetings db;
        files := files db;
        utterances := utterances db;
        chunks := chunks db;
        summaries := summaries db;
        asr_jobs := filter (fun j => negb (condition j)) (asr_jobs db);
        files_id_seq := files_id_seq db;
        utterances_id_seq := utterances_id_seq db;
        chunks_id_seq := chunks_id_seq db |}.

(** The statements a client of this schema runs. *)
Inductive statement : Type :=
| INSERT_meetings (id : uuid) (title video_url : option string)
    (consent : column_input bool) (status : column_input string)
| UPDATE_meetings (id : uuid) (a : meetings_assignment)
| DELETE_meetings (id : uuid)
| INSERT_files (meeting_id : option uuid) (path public_url kind : option string)
    (size_bytes : option Z) (mime_type : option string)
| UPDATE_files (id : bigint) (a : files_assignment)
| DELETE_files (condition : files_row -> bool)
| INSERT_utterances (meeting_id : option uuid) (speaker : option string)
    (start_seconds end_seconds : option float8) (text : option string)
| UPDATE_utterances (id : bigint) (a : utterances_assignment)
| DELETE_utterances (condition : utterances_row -> bool)
| INSERT_chunks (meeting_id : option uuid) (speaker : option string)
    (start_seconds end_seconds : option float8) (topic text : option string)
    (embedding : option vector)
| UPDATE_chunks (id : bigint) (a : chunks_assignment)
| DELETE_chunks (condition : chunks_row -> bool)
| INSERT_summaries (meeting_id : option uuid) (payload : option jsonb)
| UPDATE_summaries (meeting_id : uuid) (a : summaries_assignment)
| DELETE_summaries (condition : summaries_row -> bool)
| INSERT_asr_jobs (id : option string) (meeting_id : option uuid)
    (provider callback_url : option string) (status : column_input string)
    (error : option string) (raw : option jsonb)
| UPDATE_asr_jobs (id : string) (a : asr_jobs_assignment)
| DELETE_asr_jobs (condition : asr_jobs_row -> bool).

Definition execute (now : timestamptz) (st : statement) (db : database)
  : result database :=
  match st with
  | INSERT_meetings id title video_url consent status =>
      insert_meetings now id title video_url consent status db
  | UPDATE_meetings id a => update_meetings now id a db
  | DELETE_meetings id => delete_meetings id db
  | INSERT_files meeting_id path public_url kind size_bytes mime_type =>
      insert_files now meeting_id path public_url kind size_bytes mime_type db
  | UPDATE_files id a => update_files id a db
  | DELETE_files condition => delete_files condition db
  | INSERT_utterances meeting_id speaker start_seconds end_seconds text =>
      insert_utterances now meeting_id speaker start_seconds end_seconds text db
  | UPDATE_utterances id a => update_utterances id a db
  | DELETE_utterances condition => delete_utterances condition db
  | INSERT_chunks meeting_id speaker start_seconds end_seconds topic text
      embedding =>
      insert_chunks now meeting_id speaker start_seconds end_seconds topic
        text embedding db
  | UPDATE_chunks id a => update_chunks id a db
  | DELETE_chunks condition => delete_chunks condition db
  | INSERT_summaries meeting_id payload =>
      insert_summaries now meeting_id payload db
  | UPDATE_summaries meeting_id a => update_summaries now meeting_id a db
  | DELETE_summaries condition => delete_summaries condition db
  | INSERT_asr_jobs id meeting_id provider callback_url status error raw =>
      insert_asr_jobs now id meeting_id provider callback_url status error
        raw db
  | UPDATE_asr_jobs id a => update_asr_jobs now id a db
  | DELETE_asr_jobs condition => delete_asr_jobs condition db
  end.

(** The states a database goes through: the empty one after the script,
    then one state per statement that succeeds (a failed statement changes
    nothing). *)
Inductive reachable : database -> Prop :=
| reachable_empty : reachable empty_database
| reachable_step : forall db now st db',
    reachable db -> execute now st db = Ok db' -> reachable db'.

(* ================================================================== *)
(** * setup.sql: match_chunks *)
(* ================================================================== *)

(** A row of [RETURNS TABLE (...)]. *)
Record match_chunks_row : Type := {
  id : bigint;
  meeting_id : uuid;
  speaker : option string;
  start_seconds : float8;
  end_seconds : float8;
  topic : option string;
  text : string;
  embedding : option vector;
  created_at : timestamptz;
  similarity : option float8
}.

(** [WHERE chunks.meeting_id = p_meeting_id
      AND chunks.embedding IS NOT NULL]. *)
Definition match_chunks_where (p_meeting_id : uuid) (c : chunks_row) : bool :=
  uuid_eqb (chunks_meeting_id c) p_meeting_id
  && is_not_null (chunks_embedding c).

(** The select list, [1 - (chunks.embedding <=> query_embedding) AS
    similarity] last; [distance] is the value of the [<=>] expression. *)
Definition match_chunks_select (distance : option float8) (c : chunks_row)
  : match_chunks_row :=
  {| id := chunks_id c;
     meeting_id := chunks_meeting_id c;
     speaker := chunks_speaker c;
     start_seconds := chunks_start_seconds c;
     end_seconds := chunks_end_seconds c;
     topic := chunks_topic c;
     text := chunks_text c;
     embedding := chunks_embedding c;
     created_at := chunks_created_at c;
     similarity := minus (Some float8_one) distance |}.

(** [match_chunks(query_embedding vector(3072), p_meeting_id uuid,
    match_count int DEFAULT 5)], called with non-null arguments.

    The body is one query, read in the order PostgreSQL runs it.  The LIMIT
    count is evaluated first: a negative one is an error, and a count of
    zero ends the query there, before the scan below the LIMIT is started,
    so that nothing is compared.  Otherwise the rows that pass WHERE get
    their [<=>] distance, every one of them since the sort reads all its
    input before it gives a row; they are sorted by it, cut to the count
    and projected.

    PostgreSQL keeps no type modifier of a function parameter (CREATE
    FUNCTION, Notes: parenthesized type modifiers are discarded, so
    [foo(varchar(10))] is exactly [foo(varchar)]): the [(3072)] of
    [query_embedding] checks nothing at the call.  The query vector is
    compared with a stored embedding as it is, and it is the [<=>]
    operator that refuses a pair of different dimensions. *)
Definition match_chunks (db : database) (query_embedding : vector)
  (p_meeting_id : uuid) (match_count : Z) : result (list match_chunks_row) :=
  count <- limit_count match_count ;;
  match count with
  | O => Ok []
  | S _ =>
      keyed <- map_result
                 (fun c =>
                    d <- cosine_distance (chunks_embedding c)
                                         (Some query_embedding) ;;
                    Ok (d, c))
                 (filter (match_chunks_where p_meeting_id) (chunks db)) ;;
      Ok (map (fun dc => match_chunks_select (fst dc) (snd dc))
              (firstn count
                 (order_by (fun x y => order_by_le (fst x) (fst y)) keyed)))
  end.

(** [match_count int DEFAULT 5]. *)
Definition match_count_default : Z := 5%Z.

(** A call that leaves the third argument out. *)
Definition match_chunks_default (db : database) (query_embedding : vector)
  (p_meeting_id : uuid) : result (list match_chunks_row) :=
  match_chunks db query_embedding p_meeting_id match_count_default.

(** N of the retrieval contract: the chunks of meeting [m] that have an
    embedding. *)
Fixpoint embedded_chunk_count (m : uuid) (cs : list chunks_row) : nat :=
  match cs with
  | [] => 0
  | c :: cs' =>
      match chunks_embedding c with
      | Some _ =>
          if uuid_eqb (chunks_meeting_id c) m
          then S (embedded_chunk_count m cs')
          else embedded_chunk_count m cs'
      | None => embedded_chunk_count m cs'
      end
  end.

(** Every stored embedding has the dimension of its column. *)
Definition embeddings_typed (db : database) : Prop :=
  forall c e, In c (chunks db) -> chunks_embedding c = Some e ->
              length e = EMBEDDING_DIM.

(** The cosine distance of a returned row to the query, when it has one. *)
Definition row_distance (query_embedding : vector) (r : match_chunks_row)
  : option float8 :=
  match embedding r with
  | Some e => Some (vector_cosine e query_embedding)
  | None => None
  end.

(** The value of [chunks.embedding <=> query_embedding] on a chunk whose
    embedding has the dimension of the query. *)
Definition chunk_distance (query_embedding : vector) (c : chunks_row)
  : option float8 :=
  match chunks_embedding c with
  | Some e => Some (vector_cosine e query_embedding)
  | None => None
  end.

Definition keyed (query_embedding : vector) (c : chunks_row)
  : option float8 * chunks_row :=
  (chunk_distance query_embedding c, c).

Definition key_le (x y : option float8 * chunks_row) : bool :=
  order_by_le (fst x) (fst y).

(** Rows in non-decreasing distance to the query. *)
Definition by_distance (q : vector) (r1 r2 : match_chunks_row) : Prop :=
  exists d1 d2,
    row_distance q r1 = Some d1 /\ row_distance q r2 = Some d2
    /\ float8_le d1 d2 = true.

(** The six values of [meetings_status_check]. *)
Definition status_allowed (s : string) : Prop := In s meetings_status_check.

Definition statuses_checked (db : database) : Prop :=
  forall m, In m (meetings db) -> status_allowed (meetings_status m).

End Schema.

(* ================================================================== *)
(** * schemas/db.sql: the earlier raw schema *)
(* ================================================================== *)

Module DbSql.

(** [meetings]: every column but the key is nullable, and no CHECK is
    declared. *)
Record meetings_row : Type := {
  meetings_id : uuid;
  meetings_title : option string;
  meetings_created_at : option timestamptz;
  meetings_video_url : option string;
  meetings_status : option string
}.

Definition meetings_status_default : string := "processing".

(** The constraints on [meetings.status]: none. *)
Definition meetings_status_check : option (list string) := None.

Definition check_status (v : option string) : result unit :=
  match meetings_status_check, v with
  | Some allowed, Some s => check_in "meetings_status_check" allowed s
  | _, _ => Ok tt
  end.

(** [INSERT INTO meetings] on a table given by its rows. *)
Definition insert_meetings (now : timestamptz) (id : option uuid)
  (title : option string) (created_at : column_input timestamptz)
  (video_url : option string) (status : column_input string)
  (rows : list meetings_row) : result (list meetings_row) :=
  id' <- not_null "id" id ;;
  let status' := resolve (Some meetings_status_default) status in
  _ <- check_status status' ;;
  if existsb (fun m => uuid_eqb (meetings_id m) id') rows
  then Err (unique_violation "meetings_pkey")
  else
    Ok (rows ++
          [{| meetings_id := id';
              meetings_title := title;
              meetings_created_at := resolve (Some now) created_at;
              meetings_video_url := video_url;
              meetings_status := status' |}]).

(** [UPDATE meetings SET status = s WHERE id = id]. *)
Definition update_meetings_status (id : uuid) (s : option string)
  (rows : list meetings_row) : result (list meetings_row) :=
  _ <- check_status s ;;
  Ok (map (fun m =>
             if uuid_eqb (meetings_id m) id then
               {| meetings_id := meetings_id m;
                  meetings_title := meetings_title m;
                  meetings_created_at := meetings_created_at m;
                  meetings_video_url := meetings_video_url m;
                  meetings_status := s |}
             else m)
          rows).

(** The foreign keys of the three dependent tables of this script. *)
Definition utterances_meeting_id_fkey : referential_action := cascade.
Definition summaries_meeting_id_fkey : referential_action := cascade.
Definition chunks_meeting_id_fkey : referential_action := cascade.

(** [embedding VECTOR(3072)]. *)
Definition chunks_embedding_dim : nat := 3072.

End DbSql.

(* ================================================================== *)
(** * JavaScript values, JSON and promises *)
(* ================================================================== *)

Module Js.

(** A number: NaN or the finite value [num / den] (zero of either sign is
    [num = 0]). *)
Inductive number : Type :=
| NaN
| finite (num : Z) (den : positive).

Definition of_Z (z : Z) : number := finite z 1.

(** The values the helpers handle. *)
Inductive value : Type :=
| Undefined
| Null
| Bool (b : bool)
| Num (n : number)
| Str (s : string)
| Arr (items : list value)
| Obj (members : list (string * value)).

(** What travels in a request body: JSON has no [undefined] and no NaN. *)
Inductive json : Type :=
| JNull
| JBool (b : bool)
| JNum (num : Z) (den : positive)
| JStr (s : string)
| JArr (items : list json)
| JObj (members : list (string * json)).

(** ToBoolean. *)
Definition truthy (v : value) : bool :=
  match v with
  | Undefined | Null => false
  | Bool b => b
  | Num NaN => false
  | Num (finite n _) => negb (n =? 0)%Z
  | Str s => negb (String.eqb s "")
  | Arr _ | Obj _ => true
  end.

(** [a || b]. *)
Definition logical_or (a b : value) : value := if truthy a then a else b.

Fixpoint lookup {A : Type} (key : string) (members : list (string * A))
  : option A :=
  match members with
  | [] => None
  | (k, v) :: rest => if String.eqb k key then Some v else lookup key rest
  end.

(** [v.key] on a value that is neither [undefined] nor [null]: a member of
    an object, [undefined] when there is none (no built-in prototype has a
    property of the names used here). *)
Definition get (v : value) (key : string) : value :=
  match v with
  | Obj members =>
      match lookup key members with
      | Some x => x
      | None => Undefined
      end
  | _ => Undefined
  end.

(** [v?.key]. *)
Definition get_optional (v : value) (key : string) : value :=
  match v with
  | Undefined | Null => Undefined
  | _ => get v key
  end.

(** A parameter with a default ([k = 12]): the default replaces
    [undefined] only. *)
Definition default (v fallback : value) : value :=
  match v with
  | Undefined => fallback
  | _ => v
  end.

Definition is_array (v : value) : bool :=
  match v with
  | Arr _ => true
  | _ => false
  end.

(** JSON.stringify, up to the text: a member whose value is [undefined] is
    left out, [undefined] in an array and NaN become [null]; [undefined]
    itself has no JSON. *)
Fixpoint to_json (v : value) : option json :=
  match v with
  | Undefined => None
  | Null => Some JNull
  | Bool b => Some (JBool b)
  | Num NaN => Some JNull
  | Num (finite n d) => Some (JNum n d)
  | Str s => Some (JStr s)
  | Arr items =>
      Some (JArr (map (fun x => match to_json x with
                                | Some j => j
                                | None => JNull
                                end) items))
  | Obj members =>
      Some (JObj ((fix go (ms : list (string * value)) : list (string * json) :=
                     match ms with
                     | [] => []
                     | (k, x) :: rest =>
                         match to_json x with
                         | Some j => (k, j) :: go rest
                         | None => go rest
                         end
                     end) members))
  end.

(** The members [JSON.stringify] keeps of an object. *)
Fixpoint json_members (ms : list (string * value)) : list (string * json) :=
  match ms with
  | [] => []
  | (k, x) :: rest =>
      match to_json x with
      | Some j => (k, j) :: json_members rest
      | None => json_members rest
      end
  end.

(** A member that is written only when its value is not [undefined]. *)
Definition written (key : string) (v : value) : list (string * json) :=
  match to_json v with
  | Some j => [(key, j)]
  | None => []
  end.

(** The member names of a JSON object. *)
Definition keys (j : json) : list string :=
  match j with
  | JObj members => map fst members
  | _ => []
  end.

Definition member (j : json) (key : string) : option json :=
  match j with
  | JObj members => lookup key members
  | _ => None
  end.

(** What a promise is rejected with, or a function throws. *)
Inductive error : Type :=
| Error (message : string)
| TypeError (message : string)
| SyntaxError (message : string)
| NetworkError (message : string).

(** A settled promise. *)
Inductive promise (A : Type) : Type :=
| fulfilled (a : A)
| rejected (e : error).

Arguments fulfilled {A} a.
Arguments rejected {A} e.

(** [p.then(f)], [f] returning a plain value. *)
Definition then_ {A B : Type} (p : promise A) (f : A -> B) : promise B :=
  match p with
  | fulfilled a => fulfilled (f a)
  | rejected e => rejected e
  end.

End Js.

(* ================================================================== *)
(** * The axios client *)
(* ================================================================== *)

Module Api.
Import Js.

(** What [api.get] and [api.post] hand to the network, below [baseURL]. *)
Record axios_request : Type := {
  method : string;
  url : string;
  params : list (string * value);
  data : option json
}.

Record axios_response : Type := {
  response_status : nat;
  response_data : value
}.

(** The request [getUtterances] sends. *)
Definition utterances_request (meeting_id : value) : axios_request :=
  {| method := "get"; url := "/utterances";
     params := [("meeting_id", meeting_id)]; data := None |}.

Section Network.

(** The instance [api]: it settles a request. *)
Variable api : axios_request -> promise axios_response.

(** ToNumber, the conversion behind [Number(x)]. *)
Variable Number : value -> number.

Definition api_get (path : string) (query : list (string * value))
  : promise axios_response :=
  api {| method := "get"; url := path; params := query; data := None |}.

Definition api_post (path : string) (body : value) : promise axios_response :=
  api {| method := "post"; url := path; params := []; data := to_json body |}.

Definition buildIndex (meeting_id : value) : promise value :=
  then_ (api_post "/index" (Obj [("meeting_id", meeting_id)])) response_data.

Definition summarize (meeting_id : value) : promise value :=
  then_ (api_post "/summarize" (Obj [("meeting_id", meeting_id)]))
        response_data.

Definition getSummary (meeting_id : value) : promise value :=
  then_ (api_get "/summary" [("meeting_id", meeting_id)]) response_data.

(** [r => r.data?.items || []]. *)
Definition items_or_empty (r : axios_response) : value :=
  logical_or (get_optional (response_data r) "items") (Arr []).

Definition getUtterances (meeting_id : value) : promise value :=
  then_ (api_get "/utterances" [("meeting_id", meeting_id)]) items_or_empty.

(** The object [askChat] posts, from its one argument
    [{ meeting_id, query, k=12, speaker, time_end, rerank=true }]. *)
Definition askChat_body (args : value) : value :=
  let meeting_id := get args "meeting_id" in
  let query := get args "query" in
  let k := default (get args "k") (Num (of_Z 12)) in
  let speaker := get args "speaker" in
  let time_end := get args "time_end" in
  let rerank := default (get args "rerank") (Bool true) in
  Obj [("meeting_id", meeting_id);
       ("query", query);
       ("k", k);
       ("filters",
        Obj [("speaker", logical_or speaker Null);
             ("time_start", Null);
             ("time_end",
              if truthy time_end then Num (Number time_end) else Null)]);
       ("rerank", rerank)].

(** Destructuring [undefined] or [null] throws before anything is sent
    (the exception is shown as a rejection). *)
Definition askChat (args : value) : promise value :=
  match args with
  | Undefined | Null =>
      rejected (TypeError "Cannot destructure property of undefined or null")
  | _ => then_ (api_post "/chat" (askChat_body args)) response_data
  end.

(** The request [askChat] sends, when it sends one. *)
Definition askChat_request (args : value) : option axios_request :=
  match args with
  | Undefined | Null => None
  | _ => Some {| method := "post"; url := "/chat"; params := [];
                 data := to_json (askChat_body args) |}
  end.

End Network.

End Api.

(* ================================================================== *)
(** * The fetch client *)
(* ================================================================== *)

Module Client.
Import Js.

(** The second argument of [fetch], as the helpers fill it; [body] is the
    JSON that [JSON.stringify] wrote. *)
Record fetch_options : Type := {
  method : option string;
  headers : list (string * string);
  body : option json
}.

(** [options = {}]. *)
Definition no_options : fetch_options :=
  {| method := None; headers := []; body := None |}.

(** A [Response]; [json_body] is what [res.json()] settles to (rejected
    when the body is not JSON). *)
Record response : Type := {
  ok : bool;
  status : nat;
  statusText : string;
  json_body : promise value
}.

(** The template literal [`${res.status} ${res.statusText}`]. *)
Definition status_line (res : response) : string :=
  (NilZero.string_of_uint (Nat.to_uint (status res)) ++ " "
   ++ statusText res)%string.

Section Network.

Variable fetch : string -> fetch_options -> promise response.

(** [config.js]: [API_BASE] comes from the environment. *)
Variable API_BASE : string.

Definition ENDPOINTS_index : string := (API_BASE ++ "/api/index")%string.
Definition ENDPOINTS_chat : string := (API_BASE ++ "/api/chat")%string.

(** What [request] does once [fetch] has given a response. *)
Definition request_response (res : response) : promise value :=
  if negb (ok res) then rejected (Error (status_line res))
  else
    match json_body res with
    | fulfilled v => fulfilled v
    | rejected _ => fulfilled (Obj [])
    end.

Definition request (url : string) (options : fetch_options) : promise value :=
  match fetch url options with
  | fulfilled res => request_response res
  | rejected e => rejected e
  end.

Definition json_headers : list (string * string) :=
  [("Content-Type", "application/json")].

Definition buildIndex_options (meetingId : value) : fetch_options :=
  {| method := Some "POST";
     headers := json_headers;
     body := to_json (Obj [("meeting_id", meetingId)]) |}.

Definition buildIndex (meetingId : value) : promise value :=
  request ENDPOINTS_index (buildIndex_options meetingId).

(** The options [chat] passes: the body is
    [JSON.stringify({ meeting_id: meetingId, query })]. *)
Definition chat_options (meetingId query : value) : fetch_options :=
  {| method := Some "POST";
     headers := json_headers;
     body := to_json (Obj [("meeting_id", meetingId); ("query", query)]) |}.

Definition chat (meetingId query : value) : promise value :=
  request ENDPOINTS_chat (chat_options meetingId query).

End Network.

End Client.

(* ================================================================== *)
(** * Concrete tables, for running the model *)
(* ================================================================== *)

(** A script: statements run one after the other at the same clock value,
    stopping at the first error. *)
Fixpoint run {N : PgNumeric} (now : timestamptz) (script : list statement)
  (db : database) : result database :=
  match script with
  | [] => Ok db
  | st :: rest => db' <- execute now st db ;; run now rest db'
  end.

(** Two integer vectors of dimension 3072. *)
Definition origin : @vector integer_numeric := repeat 0%Z EMBEDDING_DIM.
Definition shifted (x : Z) : @vector integer_numeric :=
  x :: repeat 0%Z (EMBEDDING_DIM - 1).

(** Meeting [M] of the retrieval example: chunk A nearest to the query,
    chunk B farther, chunk C without an embedding.  They are inserted as
    B, C, A. *)
Definition example_script : list (@statement integer_numeric) :=
  [ INSERT_meetings "M" (Some "Weekly sync") None omitted omitted;
    INSERT_meetings "empty" (Some "No chunks yet") None omitted omitted;
    INSERT_chunks (Some "M") (Some "Speaker B") (Some 25%Z) (Some 60%Z)
      None (Some "ASR update and metrics.") (Some (shifted 3));
    INSERT_chunks (Some "M") None (Some 60%Z) (Some 120%Z)
      None (Some "RAG experiments summary.") None;
    INSERT_chunks (Some "M") (Some "Speaker A") (Some 0%Z) (Some 25%Z)
      None (Some "Welcome and agenda.") (Some (shifted 1)) ].

Definition example_database : @database integer_numeric :=
  match run 0%Z example_script empty_database with
  | Ok db => db
  | Err _ => empty_database
  end.

(** A 404 whose body is not JSON, and a 200 whose body is not JSON. *)
Definition response_404 : Client.response :=
  {| Client.ok := false; Client.status := 404;
     Client.statusText := "Not Found";
     Client.json_body := Js.rejected (Js.SyntaxError "Unexpected token <") |}.

Definition response_200_html : Client.response :=
  {| Client.ok := true; Client.status := 200;
     Client.statusText := "OK";
     Client.json_body := Js.rejected (Js.SyntaxError "Unexpected token <") |}.

(** A body whose [items] is a string, and a server that answers with it. *)
Definition response_items_string : Api.axios_response :=
  {| Api.response_status := 200;
     Api.response_data := Js.Obj [("items", Js.Str "oops")] |}.

Definition response_no_body : Api.axios_response :=
  {| Api.response_status := 204; Api.response_data := Js.Undefined |}.

(** A question about meeting [m1], as the chat page would ask it. *)
Definition example_question : Js.value :=
  Js.Obj [("meeting_id", Js.Str "m1"); ("query", Js.Str "What was decided?")].


(* ================================================================== *)
(** * setup.sql: what the constraints keep true *)
(* ================================================================== *)

Section Invariants.

Context {N : PgNumeric}.

(** [REFERENCES meetings(id)]: every dependent row names a meeting of the
    table. *)
Definition foreign_keys_valid (db : database) : Prop :=
  (forall r, In r (files db) -> meeting_exists db (files_meeting_id r) = true)
  /\ (forall r, In r (utterances db) ->
                meeting_exists db (utterances_meeting_id r) = true)
  /\ (forall r, In r (chunks db) ->
                meeting_exists db (chunks_meeting_id r) = true)
  /\ (forall r, In r (summaries db) ->
                meeting_exists db (summaries_meeting_id r) = true)
  /\ (forall r, In r (asr_jobs db) ->
                meeting_exists db (asr_jobs_meeting_id r) = true).




(** The key a selected row has after an UPDATE by key [k] that assigns
    [new] to the key column. *)
Definition key_after (k : string) (new : column_input string) : string :=
  match new with
  | supplied (Some k') => k'
  | _ => k
  end.

(** The key the selected rows have after
    [UPDATE meetings ... WHERE id = id]. *)
Definition meetings_key_after (id : uuid) (a : meetings_assignment) : uuid :=
  match set_id a with
  | supplied (Some k) => k
  | _ => id
  end.

(** A key column after an UPDATE that moves key [k] to [k']. *)
Definition rekey (k k' x : string) : string :=
  if String.eqb x k then k' else x.

(** [files_kind_check] and [asr_jobs_status_check]. *)
Definition enumerations_checked (db : database) : Prop :=
  (forall f, In f (files db) -> In (files_kind f) files_kind_check)
  /\ (forall j, In j (asr_jobs db) ->
                In (asr_jobs_status j) asr_jobs_status_check).

(** The candidates of [match_chunks] for meeting [m]: the chunks WHERE
    keeps. *)
Definition candidate (db : database) (m : uuid) (c : chunks_row) : Prop :=
  In c (chunks db) /\ match_chunks_where m c = true.

(** The statements that can change the candidates of meeting [m]: deleting
    [m], inserting a chunk of [m] with an embedding, and updating or
    deleting chunks. *)
Definition may_change_candidates (m : uuid) (st : statement) : bool :=
  match st with
  | DELETE_meetings id => uuid_eqb id m
  | INSERT_chunks (Some m') _ _ _ _ _ (Some _) => uuid_eqb m' m
  | UPDATE_chunks _ _ => true
  | DELETE_chunks _ => true
  | _ => false
  end.

(** The row [match_chunks] returns for a chunk that has embedding [e]. *)
Definition row_of_chunk (query_embedding : vector) (c : chunks_row)
  (e : vector) : match_chunks_row :=
  match_chunks_select (Some (vector_cosine e query_embedding)) c.

End Invariants.

(** Assignments of one column. *)
Definition set_meeting_status (s : string) : meetings_assignment :=
  {| set_id := omitted; set_title := omitted; set_video_url := omitted;
     set_consent := omitted; set_status := supplied (Some s);
     set_created_at := omitted; set_updated_at := omitted |}.

Definition set_summary_payload (p : jsonb) : summaries_assignment :=
  {| set_summaries_meeting_id := omitted;
     set_summaries_payload := supplied (Some p);
     set_summaries_created_at := omitted;
     set_summaries_updated_at := omitted |}.

Definition set_asr_job_status (s : string) : asr_jobs_assignment :=
  {| set_asr_jobs_id := omitted; set_asr_jobs_meeting_id := omitted;
     set_asr_jobs_provider := omitted; set_asr_jobs_callback_url := omitted;
     set_asr_jobs_status := supplied (Some s); set_asr_jobs_error := omitted;
     set_asr_jobs_raw := omitted; set_asr_jobs_created_at := omitted;
     set_asr_jobs_updated_at := omitted |}.

Definition set_file_kind (k : string) : files_assignment :=
  {| set_files_meeting_id := omitted; set_files_path := omitted;
     set_files_public_url := omitted; set_files_kind := supplied (Some k);
     set_files_size_bytes := omitted; set_files_mime_type := omitted;
     set_files_created_at := omitted |}.

(** The example meeting with a file, an utterance, a summary (written,
    then rewritten) and an ASR job (queued, then processing) beside its
    chunks. *)
Definition populated_script : list (@statement integer_numeric) :=
  example_script ++
  [ INSERT_files (Some "M") (Some "meetings/video.mp4") None (Some "upload")
      (Some 1024000%Z) (Some "video/mp4");
    INSERT_utterances (Some "M") (Some "SPEAKER_0") (Some 0%Z) (Some 2%Z)
      (Some "Good morning everyone!");
    INSERT_summaries (Some "M")
      (Some (jsonb_object [("overview", jsonb_string "first draft")]));
    UPDATE_summaries "M"
      (set_summary_payload
         (jsonb_object [("overview", jsonb_string "final")]));
    INSERT_asr_jobs (Some "assemblyai_abc123") (Some "M") (Some "assemblyai")
      None omitted None None;
    UPDATE_asr_jobs "assemblyai_abc123" (set_asr_job_status "processing") ].

Definition populated_database : @database integer_numeric :=
  Eval vm_compute in
    match run 0%Z populated_script empty_database with
    | Ok db => db
    | Err _ => empty_database
    end.

(* ================================================================== *)
(** * Facts about lists, sorting and [result] *)
(* ================================================================== *)

Section ListFacts.

Context {A B : Type}.

Lemma map_result_In (f : A -> result B) (l : list A) (l' : list B) (b : B) :
  map_result f l = Ok l' -> In b l' -> exists a, In a l /\ f a = Ok b.
Proof.
  revert l'. induction l as [|a l IH]; intros l' H Hin; simpl in H.
  - inversion H. subst. contradiction.
  - destruct (f a) as [b0|e] eqn:Ha; simpl in H; [|discriminate].
    destruct (map_result f l) as [bs|e]; simpl in H; [|discriminate].
    inversion H. subst. destruct Hin as [->|Hin].
    + exists a. split; [left; reflexivity | exact Ha].
    + destruct (IH bs eq_refl Hin) as [a' [Ha' Hf]].
      exists a'. split; [right; exact Ha' | exact Hf].
Qed.

(** When [f] succeeds as [g] on every element, [map_result f] is [map g]. *)
Lemma map_result_map (f : A -> result B) (g : A -> B) (l : list A) :
  (forall a, In a l -> f a = Ok (g a)) -> map_result f l = Ok (map g l).
Proof.
  induction l as [|a l IH]; intros H; simpl.
  - reflexivity.
  - rewrite (H a (or_introl eq_refl)). simpl.
    rewrite IH by (intros a' Ha'; apply H; right; exact Ha').
    reflexivity.
Qed.

(** When [f] fails with [e] on every element of a non-empty list, so does
    [map_result f]. *)
Lemma map_result_all_err (f : A -> result B) (e : sql_error) (l : list A) :
  l <> [] -> (forall a, In a l -> f a = Err e) -> map_result f l = Err e.
Proof.
  destruct l as [|a l]; intros Hne H.
  - contradiction.
  - simpl. rewrite (H a (or_introl eq_refl)). reflexivity.
Qed.

Lemma map_result_image (f : A -> result B) (l : list A) (l' : list B)
  (a : A) (b : B) :
  map_result f l = Ok l' -> In a l -> f a = Ok b -> In b l'.
Proof.
  revert l'. induction l as [|x l IH]; intros l' H Ha Hf; [contradiction|].
  simpl in H. destruct (f x) as [y|] eqn:Hx; simpl in H; [|discriminate].
  destruct (map_result f l) as [ys|]; simpl in H; [|discriminate].
  inversion H. subst. destruct Ha as [->|Ha].
  - left. congruence.
  - right. apply IH; [reflexivity | exact Ha | exact Hf].
Qed.

Lemma map_result_length (f : A -> result B) (l : list A) (l' : list B) :
  map_result f l = Ok l' -> length l' = length l.
Proof.
  revert l'. induction l as [|x l IH]; intros l' H; simpl in H.
  - inversion H. reflexivity.
  - destruct (f x) as [y|]; simpl in H; [|discriminate].
    destruct (map_result f l) as [ys|]; simpl in H; [|discriminate].
    inversion H. simpl. f_equal. apply IH. reflexivity.
Qed.

Lemma map_result_raises (f : A -> result B) (e : sql_error) (l : list A) :
  (forall a, In a l -> f a = Err e \/ exists b, f a = Ok b) ->
  (exists a, In a l /\ f a = Err e) ->
  map_result f l = Err e.
Proof.
  induction l as [|x l IH]; intros Hall [a [Ha Hf]]; [contradiction|].
  simpl. destruct (Hall x (or_introl eq_refl)) as [Hx|[b Hx]]; rewrite Hx.
  - reflexivity.
  - simpl. rewrite IH; [reflexivity | |].
    + intros a' Ha'. apply Hall. right. exact Ha'.
    + destruct Ha as [->|Ha]; [congruence|]. exists a. split; assumption.
Qed.

End ListFacts.

Section SortFacts.

Context {A : Type} (le : A -> A -> bool).

Local Abbreviation R := (holds le).

Lemma insert_sorted_perm (x : A) (l : list A) :
  Permutation (insert_sorted le x l) (x :: l).
Proof.
  induction l as [|y l IH]; simpl.
  - apply Permutation_refl.
  - destruct (le x y).
    + apply Permutation_refl.
    + apply Permutation_trans with (y :: x :: l).
      * apply perm_skip. exact IH.
      * apply perm_swap.
Qed.

Lemma order_by_perm (l : list A) : Permutation (order_by le l) l.
Proof.
  induction l as [|x l IH]; simpl.
  - apply perm_nil.
  - apply Permutation_trans with (x :: order_by le l).
    + apply insert_sorted_perm.
    + apply perm_skip. exact IH.
Qed.

Lemma order_by_length (l : list A) : length (order_by le l) = length l.
Proof. apply Permutation_length, order_by_perm. Qed.

Lemma order_by_In (x : A) (l : list A) : In x (order_by le l) <-> In x l.
Proof.
  split; apply Permutation_in.
  - apply order_by_perm.
  - apply Permutation_sym, order_by_perm.
Qed.

Hypothesis le_total : forall a b, le a b = true \/ le b a = true.
Hypothesis le_trans : forall a b c,
  le a b = true -> le b c = true -> le a c = true.

Lemma insert_sorted_sorted (x : A) (l : list A) :
  StronglySorted R l -> StronglySorted R (insert_sorted le x l).
Proof.
  induction l as [|y l IH]; intros Hs; simpl.
  - constructor; constructor.
  - inversion Hs as [|y' l' Hl Hy]; subst.
    destruct (le x y) eqn:Hxy.
    + constructor; [exact Hs|].
      constructor; [exact Hxy|].
      eapply Forall_impl; [|exact Hy].
      intros z Hz. unfold holds in *. apply (le_trans x y z Hxy Hz).
    + constructor; [apply IH; exact Hl|].
      assert (Hyx : le y x = true).
      { destruct (le_total x y) as [H|H]; [congruence | exact H]. }
      apply Forall_forall. intros z Hz.
      apply (Permutation_in _ (insert_sorted_perm x l)) in Hz.
      destruct Hz as [<-|Hz]; [exact Hyx|].
      rewrite Forall_forall in Hy. apply Hy. exact Hz.
Qed.

Lemma order_by_sorted (l : list A) : StronglySorted R (order_by le l).
Proof.
  induction l as [|x l IH]; simpl.
  - constructor.
  - apply insert_sorted_sorted. exact IH.
Qed.

End SortFacts.

Lemma StronglySorted_firstn {A : Type} (R : A -> A -> Prop) (n : nat)
  (l : list A) :
  StronglySorted R l -> StronglySorted R (firstn n l).
Proof.
  revert n. induction l as [|x l IH]; intros n Hs.
  - rewrite firstn_nil. constructor.
  - destruct n as [|n]; simpl; [constructor|].
    inversion Hs as [|x' l' Hl Hx]; subst.
    constructor; [apply IH; exact Hl|].
    apply Forall_forall. intros y Hy.
    rewrite Forall_forall in Hx. apply Hx.
    rewrite <- (firstn_skipn n l). apply in_or_app. left. exact Hy.
Qed.

Lemma In_firstn {A : Type} (n : nat) (l : list A) (x : A) :
  In x (firstn n l) -> In x l.
Proof.
  intros H. rewrite <- (firstn_skipn n l). apply in_or_app. left. exact H.
Qed.

(** A sorted list stays sorted under [map] when the order of the images
    follows from the order of the elements, for elements that satisfy [P]. *)
Lemma StronglySorted_map {A B : Type} (R : A -> A -> Prop) (S : B -> B -> Prop)
  (P : A -> Prop) (f : A -> B) (l : list A) :
  (forall a b, P a -> P b -> R a b -> S (f a) (f b)) ->
  Forall P l -> StronglySorted R l -> StronglySorted S (map f l).
Proof.
  intros HRS. induction l as [|x l IH]; intros HP Hs; simpl.
  - constructor.
  - inversion HP as [|x' l' Px Pl]; subst.
    inversion Hs as [|x' l' Hl Hx]; subst.
    constructor; [apply IH; assumption|].
    apply Forall_forall. intros y Hy.
    apply in_map_iff in Hy. destruct Hy as [a [<- Ha]].
    rewrite Forall_forall in Pl, Hx.
    apply HRS; [exact Px | apply Pl; exact Ha | apply Hx; exact Ha].
Qed.

(* ================================================================== *)
(** * setup.sql: constraints and the states they allow *)
(* ================================================================== *)

(** Inverts a statement that succeeded: one case per [bind] and per test. *)
Ltac invert_ok H :=
  repeat match type of H with
    | bind ?r _ = Ok _ =>
        let x := fresh "x" in
        let E := fresh "E" in
        destruct r as [x|] eqn:E; simpl in H; [|discriminate H]
    | (if ?b then _ else _) = Ok _ =>
        let E := fresh "E" in
        destruct b eqn:E; try discriminate H
    | Err _ = Ok _ => discriminate H
    | Ok _ = Ok _ => inversion H; subst; clear H
    end.

(** Opens the statement [H] speaks of. *)
Ltac unfold_statement H :=
  unfold insert_meetings, update_meetings, insert_files, update_files,
    delete_files, insert_utterances, update_utterances, delete_utterances,
    insert_chunks, update_chunks, delete_chunks, insert_summaries,
    update_summaries, delete_summaries, insert_asr_jobs, update_asr_jobs,
    delete_asr_jobs in H.

Lemma check_in_ok (constraint : string) (allowed : list string) (v : string)
  (u : unit) :
  check_in constraint allowed v = Ok u -> In v allowed.
Proof.
  unfold check_in. intros H.
  destruct (existsb (String.eqb v) allowed) eqn:E; [|discriminate].
  apply existsb_exists in E. destruct E as [s [Hs Heq]].
  apply String.eqb_eq in Heq. subst. exact Hs.
Qed.

Section SchemaFacts.

Context {N : PgNumeric}.

Lemma store_vector_ok (n : nat) (v v' : option vector) :
  store_vector n v = Ok v' ->
  v' = v /\ forall e, v = Some e -> length e = n.
Proof.
  unfold store_vector. destruct v as [u|]; intros H.
  - destruct (Nat.eqb (length u) n) eqn:E; [|discriminate].
    inversion H. split; [reflexivity|].
    intros e He. inversion He. subst. apply Nat.eqb_eq. exact E.
  - inversion H. split; [reflexivity|]. intros e He. discriminate.
Qed.

Lemma assign_vector_ok (n : nat) (v : option vector) (u : unit) :
  assign_vector n (supplied v) = Ok u ->
  forall e, v = Some e -> length e = n.
Proof.
  unfold assign_vector. intros H e He.
  destruct (store_vector n v) as [v'|] eqn:E; simpl in H; [|discriminate].
  destruct (store_vector_ok n v v' E) as [_ Hlen]. apply Hlen. exact He.
Qed.

(** With every foreign key declared ON DELETE CASCADE, deleting a meeting
    that exists filters the meeting out of all six tables at once. *)
Lemma delete_meetings_cascades (id : uuid) (db : database) :
  delete_meetings id db =
  if meeting_exists db id then
    Ok {| meetings :=
            filter (fun m => negb (uuid_eqb (meetings_id m) id)) (meetings db);
          files :=
            filter (fun r => negb (uuid_eqb (files_meeting_id r) id))
                   (files db);
          utterances :=
            filter (fun r => negb (uuid_eqb (utterances_meeting_id r) id))
                   (utterances db);
          chunks :=
            filter (fun r => negb (uuid_eqb (chunks_meeting_id r) id))
                   (chunks db);
          summaries :=
            filter (fun r => negb (uuid_eqb (summaries_meeting_id r) id))
                   (summaries db);
          asr_jobs :=
            filter (fun r => negb (uuid_eqb (asr_jobs_meeting_id r) id))
                   (asr_jobs db);
          files_id_seq := files_id_seq db;
          utterances_id_seq := utterances_id_seq db;
          chunks_id_seq := chunks_id_seq db |}
  else Ok db.
Proof. reflexivity. Qed.

Lemma update_meetings_row_status (now : timestamptz) (a : meetings_assignment)
  (old new : meetings_row) :
  update_meetings_row now a old = Ok new ->
  status_allowed (meetings_status new).
Proof.
  unfold update_meetings_row. intros H. invert_ok H. simpl.
  eapply check_in_ok. eassumption.
Qed.

Lemma execute_statuses_checked (now : timestamptz) (st : statement)
  (db db' : database) :
  statuses_checked db -> execute now st db = Ok db' -> statuses_checked db'.
Proof.
  intros Hinv H m Hm.
  destruct st; simpl in H;
    try (unfold_statement H; invert_ok H; apply Hinv; exact Hm).
  - unfold insert_meetings in H. invert_ok H. simpl in Hm.
    apply in_app_or in Hm. destruct Hm as [Hm|[<-|[]]].
    + apply Hinv. exact Hm.
    + simpl. eapply check_in_ok. eassumption.
  - unfold update_meetings in H. invert_ok H. simpl in Hm.
    destruct (map_result_In _ _ _ _ E Hm) as [old [Hold Hf]].
    destruct (uuid_eqb (meetings_id old) _).
    + eapply update_meetings_row_status. eassumption.
    + inversion Hf. subst. apply Hinv. exact Hold.
  - rewrite delete_meetings_cascades in H. invert_ok H.
    + simpl in Hm. apply filter_In in Hm. apply Hinv. tauto.
    + apply Hinv. exact Hm.
Qed.

Lemma update_chunks_row_embedding (a : chunks_assignment)
  (old new : chunks_row) :
  update_chunks_row a old = Ok new ->
  chunks_embedding new
  = resolve (chunks_embedding old) (set_chunks_embedding a).
Proof.
  unfold update_chunks_row. intros H. invert_ok H. reflexivity.
Qed.

Lemma execute_embeddings_typed (now : timestamptz) (st : statement)
  (db db' : database) :
  embeddings_typed db -> execute now st db = Ok db' -> embeddings_typed db'.
Proof.
  intros Hinv H c e Hc He.
  destruct st; simpl in H;
    try (unfold_statement H; invert_ok H; eapply Hinv; eassumption).
  - rewrite delete_meetings_cascades in H. invert_ok H.
    + simpl in Hc. apply filter_In in Hc. eapply Hinv; [|eassumption]. tauto.
    + eapply Hinv; eassumption.
  - unfold insert_chunks in H. invert_ok H. simpl in Hc.
    apply in_app_or in Hc. destruct Hc as [Hc|[<-|[]]].
    + eapply Hinv; eassumption.
    + simpl in He. subst.
      match goal with
      | Hs : store_vector _ _ = Ok _ |- _ =>
          destruct (store_vector_ok _ _ _ Hs) as [Heq Hlen]
      end.
      apply Hlen. symmetry. exact Heq.
  - unfold update_chunks in H. invert_ok H. simpl in Hc.
    destruct (map_result_In _ _ _ _ E0 Hc) as [old [Hold Hf]].
    destruct (chunks_id old =? _)%Z.
    + rewrite (update_chunks_row_embedding _ _ _ Hf) in He.
      destruct (set_chunks_embedding a) as [|v] eqn:Ea; simpl in He.
      * eapply Hinv; eassumption.
      * apply (assign_vector_ok _ _ _ E e He).
    + inversion Hf. subst. eapply Hinv; eassumption.
  - unfold delete_chunks in H. invert_ok H. simpl in Hc.
    apply filter_In in Hc. eapply Hinv; [|eassumption]. tauto.
Qed.

Lemma reachable_statuses_checked (db : database) :
  reachable db -> statuses_checked db.
Proof.
  induction 1 as [|db now st db' _ IH H].
  - intros m [].
  - eapply execute_statuses_checked; eassumption.
Qed.

Lemma reachable_embeddings_typed (db : database) :
  reachable db -> embeddings_typed db.
Proof.
  induction 1 as [|db now st db' _ IH H].
  - intros c e [].
  - eapply execute_embeddings_typed; eassumption.
Qed.

Lemma run_reachable (now : timestamptz) (script : list statement)
  (db db' : database) :
  reachable db -> run now script db = Ok db' -> reachable db'.
Proof.
  revert db. induction script as [|st rest IH]; intros db Hr H; simpl in H.
  - inversion H. subst. exact Hr.
  - destruct (execute now st db) as [db1|] eqn:E; simpl in H; [|discriminate].
    apply (IH db1); [|exact H].
    eapply reachable_step; eassumption.
Qed.

End SchemaFacts.

(* ================================================================== *)
(** * setup.sql: what match_chunks returns *)
(* ================================================================== *)

Section MatchChunksFacts.

Context {N : PgNumeric}.

Lemma match_chunks_where_true (m : uuid) (c : chunks_row) :
  match_chunks_where m c = true <->
  chunks_meeting_id c = m /\ exists e, chunks_embedding c = Some e.
Proof.
  unfold match_chunks_where, uuid_eqb, is_not_null.
  rewrite andb_true_iff, String.eqb_eq.
  destruct (chunks_embedding c) as [e|]; split; intros [H1 H2].
  - split; [exact H1 | exists e; reflexivity].
  - split; [exact H1 | reflexivity].
  - discriminate.
  - destruct H2 as [e He]. discriminate.
Qed.

Lemma filter_where_length (m : uuid) (cs : list chunks_row) :
  length (filter (match_chunks_where m) cs) = embedded_chunk_count m cs.
Proof.
  induction cs as [|c cs IH]; simpl; [reflexivity|].
  unfold match_chunks_where at 1. unfold is_not_null.
  destruct (chunks_embedding c), (uuid_eqb (chunks_meeting_id c) m);
    simpl; rewrite ?IH; reflexivity.
Qed.

Lemma limit_count_nonneg (K : Z) :
  (0 <= K)%Z -> limit_count K = Ok (Z.to_nat K).
Proof.
  intros H. unfold limit_count.
  destruct (Z.ltb_spec K 0); [lia | reflexivity].
Qed.

Lemma limit_count_negative (K : Z) :
  (K < 0)%Z -> limit_count K = Err limit_must_not_be_negative.
Proof.
  intros H. unfold limit_count.
  destruct (Z.ltb_spec K 0); [reflexivity | lia].
Qed.

(** A negative [match_count] stops the call at [LIMIT]. *)
Lemma match_chunks_negative_count (db : database) (q : vector) (m : uuid)
  (K : Z) :
  (K < 0)%Z -> match_chunks db q m K = Err limit_must_not_be_negative.
Proof.
  intros H. unfold match_chunks. rewrite limit_count_negative by exact H.
  reflexivity.
Qed.

(** A count of zero: nothing is read, nothing is compared. *)
Lemma match_chunks_zero (db : database) (q : vector) (m : uuid) :
  match_chunks db q m 0 = Ok [].
Proof. reflexivity. Qed.

Lemma limit_count_positive (K : Z) :
  (0 < K)%Z -> exists n, limit_count K = Ok (S n).
Proof.
  intros H. rewrite limit_count_nonneg by lia.
  exists (Nat.pred (Z.to_nat K)). f_equal. lia.
Qed.

(** The call, evaluated: when every candidate has the dimension of the
    query, the result is the first [K] candidates in distance order. *)
Lemma match_chunks_eval (db : database) (q : vector) (m : uuid) (K : Z) :
  (0 <= K)%Z ->
  (forall c e, In c (chunks db) -> chunks_meeting_id c = m ->
               chunks_embedding c = Some e -> length e = length q) ->
  match_chunks db q m K =
  Ok (map (fun dc => match_chunks_select (fst dc) (snd dc))
          (firstn (Z.to_nat K)
             (order_by key_le
                (map (keyed q) (filter (match_chunks_where m) (chunks db)))))).
Proof.
  intros HK Hdim. unfold match_chunks.
  rewrite limit_count_nonneg by exact HK. simpl.
  destruct (Z.to_nat K) as [|n]; [reflexivity|].
  rewrite (map_result_map _ (keyed q)).
  - reflexivity.
  - intros c Hc. apply filter_In in Hc. destruct Hc as [Hc Hw].
    apply match_chunks_where_true in Hw. destruct Hw as [Hm [e He]].
    unfold keyed, chunk_distance, cosine_distance. rewrite He.
    rewrite (Hdim c e Hc Hm He), Nat.eqb_refl. reflexivity.
Qed.

(** Where a returned row comes from, whatever the arguments. *)
Lemma match_chunks_row_origin (db : database) (q : vector) (m : uuid) (K : Z)
  (rows : list match_chunks_row) (r : match_chunks_row) :
  match_chunks db q m K = Ok rows -> In r rows ->
  exists c e,
    In c (chunks db) /\ chunks_meeting_id c = m
    /\ chunks_embedding c = Some e /\ length e = length q
    /\ r = match_chunks_select (Some (vector_cosine e q)) c.
Proof.
  unfold match_chunks. intros H Hr.
  destruct (limit_count K) as [count|]; cbn [bind] in H; [|discriminate].
  destruct count as [|n]; [inversion H; subst; contradiction|].
  destruct (map_result _ (filter (match_chunks_where m) (chunks db)))
    as [ks|] eqn:E; [|discriminate H].
  cbn [bind] in H. inversion H. subst rows. clear H.
  apply in_map_iff in Hr. destruct Hr as [[d c] [<- Hdc]].
  apply (In_firstn (S n)) in Hdc. apply order_by_In in Hdc.
  destruct (map_result_In _ _ _ _ E Hdc) as [c' [Hc' Hf]].
  apply filter_In in Hc'. destruct Hc' as [Hc' Hw].
  apply match_chunks_where_true in Hw. destruct Hw as [Hm [e He]].
  unfold cosine_distance in Hf. rewrite He in Hf.
  destruct (Nat.eqb (length e) (length q)) eqn:El; simpl in Hf;
    [|discriminate].
  inversion Hf. subst. exists c, e. simpl.
  apply Nat.eqb_eq in El. repeat split; assumption.
Qed.

(** With no candidate, nothing is compared and nothing is returned. *)
Lemma match_chunks_no_candidate (db : database) (q : vector) (m : uuid)
  (K : Z) :
  (0 <= K)%Z -> embedded_chunk_count m (chunks db) = 0 ->
  match_chunks db q m K = Ok [].
Proof.
  intros HK H0. rewrite <- filter_where_length in H0.
  apply length_zero_iff_nil in H0.
  unfold match_chunks. rewrite limit_count_nonneg by exact HK. simpl.
  destruct (Z.to_nat K) as [|n]; [reflexivity|].
  rewrite H0. reflexivity.
Qed.

(** With a count above zero, a query of another dimension than the stored
    embeddings is refused at the first candidate. *)
Lemma match_chunks_mismatch (db : database) (q : vector) (m : uuid) (K : Z) :
  embeddings_typed db -> (0 < K)%Z -> length q <> EMBEDDING_DIM ->
  embedded_chunk_count m (chunks db) <> 0 ->
  match_chunks db q m K = Err (dimension_mismatch EMBEDDING_DIM (length q)).
Proof.
  intros Ht HK Hq Hn. unfold match_chunks.
  destruct (limit_count_positive K HK) as [n ->]. simpl.
  rewrite (map_result_all_err _ (dimension_mismatch EMBEDDING_DIM (length q))).
  - reflexivity.
  - intros Hnil. apply Hn. rewrite <- filter_where_length, Hnil. reflexivity.
  - intros c Hc. apply filter_In in Hc. destruct Hc as [Hc Hw].
    apply match_chunks_where_true in Hw. destruct Hw as [Hm [e He]].
    unfold cosine_distance. rewrite He. rewrite (Ht c e Hc He).
    destruct (Nat.eqb EMBEDDING_DIM (length q)) eqn:El.
    + apply Nat.eqb_eq in El. congruence.
    + reflexivity.
Qed.

Section Ordered.

Context {O : PgNumericOrder N}.

Lemma key_le_total (x y : option float8 * chunks_row) :
  key_le x y = true \/ key_le y x = true.
Proof.
  unfold key_le, order_by_le.
  destruct (fst x) as [a|], (fst y) as [b|]; auto.
  apply float8_le_total.
Qed.

Lemma key_le_trans (x y z : option float8 * chunks_row) :
  key_le x y = true -> key_le y z = true -> key_le x z = true.
Proof.
  unfold key_le, order_by_le.
  destruct (fst x) as [a|], (fst y) as [b|], (fst z) as [c|];
    try discriminate; auto.
  apply float8_le_trans.
Qed.

Lemma match_chunks_sorted (db : database) (q : vector) (m : uuid) (K : nat) :
  StronglySorted (by_distance q)
    (map (fun dc => match_chunks_select (fst dc) (snd dc))
         (firstn K
            (order_by key_le
               (map (keyed q) (filter (match_chunks_where m) (chunks db)))))).
Proof.
  apply StronglySorted_map
    with (R := holds key_le)
         (P := fun dc => fst dc = chunk_distance q (snd dc)
                         /\ exists e, chunks_embedding (snd dc) = Some e).
  - intros [d1 c1] [d2 c2] [H1 [e1 He1]] [H2 [e2 He2]] Hle.
    simpl in *. subst d1 d2.
    unfold key_le, chunk_distance in Hle. simpl in Hle.
    rewrite He1, He2 in Hle. simpl in Hle.
    exists (vector_cosine e1 q), (vector_cosine e2 q).
    unfold row_distance. simpl. rewrite He1, He2. auto.
  - apply Forall_forall. intros dc Hdc.
    apply In_firstn in Hdc. apply order_by_In in Hdc.
    apply in_map_iff in Hdc. destruct Hdc as [c [<- Hc]].
    apply filter_In in Hc. destruct Hc as [_ Hw].
    apply match_chunks_where_true in Hw. simpl. tauto.
  - apply StronglySorted_firstn. apply order_by_sorted.
    + exact key_le_total.
    + exact key_le_trans.
Qed.

End Ordered.

End MatchChunksFacts.

(** The integer stand-in is ordered as PostgreSQL orders numbers. *)
#[global]
Instance integer_order : PgNumericOrder integer_numeric.
Proof.
  split; simpl.
  - intros a b. destruct (Z.leb_spec a b); [left; reflexivity|].
    right. apply Z.leb_le. lia.
  - intros a b c H1 H2. apply Z.leb_le in H1, H2. apply Z.leb_le. lia.
Qed.

Section RetrievalContract.

Context {N : PgNumeric} {O : PgNumericOrder N}.

(** C1 (as amended).  For every query vector [q] of dimension 3072, every
    meeting id [m] and every count [K >= 0], on a database reached through
    the schema's statements, [match_chunks(q, m, K)] returns exactly
    [min(K, N)] rows, [N] being the number of chunks of [m] that have an
    embedding; every returned row belongs to [m] and has a non-null
    embedding; the rows come in non-decreasing cosine distance to [q]; and
    a call without [match_count] is the call with [K = 5]. *)
Theorem match_chunks_returns_k_nearest (db : database) (q : vector)
  (m : uuid) (K : Z) :
  reachable db -> length q = EMBEDDING_DIM -> (0 <= K)%Z ->
  exists rows,
    match_chunks db q m K = Ok rows
    /\ length rows = Nat.min (Z.to_nat K) (embedded_chunk_count m (chunks db))
    /\ (forall r, In r rows -> meeting_id r = m /\ embedding r <> None)
    /\ StronglySorted (by_distance q) rows
    /\ (K = 5%Z -> match_chunks_default db q m = Ok rows).
Proof.
  intros Hr Hq HK.
  pose proof (reachable_embeddings_typed db Hr) as Ht.
  assert (Hdim : forall c e, In c (chunks db) -> chunks_meeting_id c = m ->
                   chunks_embedding c = Some e -> length e = length q).
  { intros c e Hc _ He. rewrite Hq. exact (Ht c e Hc He). }
  pose proof (match_chunks_eval db q m K HK Hdim) as Heval.
  eexists. split; [exact Heval|].
  split; [|split; [|split]].
  - rewrite length_map, length_firstn, order_by_length, length_map,
      filter_where_length. reflexivity.
  - intros r Hr'.
    destruct (match_chunks_row_origin db q m K _ r Heval Hr')
      as [c [e [_ [Hm [He [_ ->]]]]]].
    simpl. rewrite He. split; [exact Hm | discriminate].
  - apply match_chunks_sorted.
  - intros ->. exact Heval.
Qed.

(** C2.  Every row [match_chunks] returns is a chunk of the table with its
    nine columns ([id], [meeting_id], [speaker], [start_seconds],
    [end_seconds], [topic], [text], [embedding], [created_at]) unchanged, and
    its [similarity] is [1 - d], [d] being the cosine distance between the
    chunk's embedding and the query. *)
Theorem match_chunks_similarity (db : database) (q : vector) (m : uuid)
  (K : Z) (rows : list match_chunks_row) :
  match_chunks db q m K = Ok rows ->
  forall r, In r rows ->
  exists c e,
    In c (chunks db)
    /\ chunks_embedding c = Some e
    /\ similarity r = Some (float8_mi float8_one (vector_cosine e q))
    /\ id r = chunks_id c
    /\ meeting_id r = chunks_meeting_id c
    /\ speaker r = chunks_speaker c
    /\ start_seconds r = chunks_start_seconds c
    /\ end_seconds r = chunks_end_seconds c
    /\ topic r = chunks_topic c
    /\ text r = chunks_text c
    /\ embedding r = Some e
    /\ created_at r = chunks_created_at c.
Proof.
  intros H r Hr.
  destruct (match_chunks_row_origin db q m K rows r H Hr)
    as [c [e [Hc [_ [He [_ ->]]]]]].
  exists c, e. simpl. rewrite He. repeat split; assumption.
Qed.

(** C3 (as amended).  For every count [K >= 0] and every query vector, a
    call for a meeting that has no chunk with an embedding (no chunk at
    all included) returns the empty result and raises nothing; and no row
    that any call returns has a null embedding. *)
Theorem match_chunks_empty_meeting (db : database) (q : vector) (m : uuid)
  (K : Z) :
  (0 <= K)%Z ->
  (embedded_chunk_count m (chunks db) = 0 -> match_chunks db q m K = Ok [])
  /\ (forall K' rows r,
        match_chunks db q m K' = Ok rows -> In r rows -> embedding r <> None).
Proof.
  intros HK. split.
  - apply match_chunks_no_candidate. exact HK.
  - intros K' rows r H Hr.
    destruct (match_chunks_row_origin db q m K' rows r H Hr)
      as [c [e [_ [_ [He [_ ->]]]]]].
    simpl. rewrite He. discriminate.
Qed.

(** C4 (as amended).  The [chunks.embedding] column (in both scripts) and
    the [query_embedding] parameter declare dimension 3072.  On a reachable
    database: a query vector whose length differs from 3072 makes
    [match_chunks] fail with a dimension mismatch when the count is above
    zero and the meeting has a chunk with an embedding; it is answered with
    the empty result when the meeting has none (count [>= 0]), and so is
    every call with count zero; and a query vector of length 3072 never
    meets the dimension error, whatever the count. *)
Theorem embedding_dimension_end_to_end :
  chunks_embedding_dim = 3072
  /\ DbSql.chunks_embedding_dim = 3072
  /\ match_chunks_query_embedding_dim = 3072
  /\ forall (db : database) (q : vector) (m : uuid),
       reachable db ->
       (forall K, length q <> 3072 -> (0 < K)%Z ->
          embedded_chunk_count m (chunks db) <> 0 ->
          match_chunks db q m K = Err (dimension_mismatch 3072 (length q)))
       /\ (forall K, length q <> 3072 -> (0 <= K)%Z ->
             embedded_chunk_count m (chunks db) = 0 ->
             match_chunks db q m K = Ok [])
       /\ match_chunks db q m 0 = Ok []
       /\ (length q = 3072 ->
           forall K a b, match_chunks db q m K <> Err (dimension_mismatch a b)).
Proof.
  split; [reflexivity|]. split; [reflexivity|]. split; [reflexivity|].
  intros db q m Hr.
  pose proof (reachable_embeddings_typed db Hr) as Ht.
  split; [|split; [|split]].
  - intros K Hq HK Hn. apply (match_chunks_mismatch db q m K Ht HK Hq Hn).
  - intros K _ HK Hz. apply match_chunks_no_candidate; assumption.
  - apply match_chunks_zero.
  - intros Hq K a b Herr.
    destruct (Z.ltb_spec K 0) as [Hneg|Hpos].
    + rewrite match_chunks_negative_count in Herr by exact Hneg.
      discriminate.
    + rewrite match_chunks_eval in Herr; [discriminate | exact Hpos |].
      intros c e Hc _ He. rewrite Hq. exact (Ht c e Hc He).
Qed.

End RetrievalContract.

(* ------------------------------------------------------------------ *)
(** ** The retrieval contract on the example meeting *)

(** The example of the specification: A before B, C left out. *)
Example match_chunks_example :
  match match_chunks example_database origin "M" 5 with
  | Ok rows => map (fun r => (id r, text r, similarity r)) rows
  | Err _ => []
  end
  = [ (3%Z, "Welcome and agenda.", Some 0%Z);
      (1%Z, "ASR update and metrics.", Some (-8)%Z) ].
Proof. reflexivity. Qed.

Lemma match_chunks_returns_k_nearest_witness :
  exists rows,
    match_chunks example_database origin "M" 5 = Ok rows
    /\ length rows
       = Nat.min (Z.to_nat 5)
                 (embedded_chunk_count "M" (chunks example_database))
    /\ (forall r, In r rows -> meeting_id r = "M" /\ embedding r <> None)
    /\ StronglySorted (by_distance origin) rows
    /\ (5%Z = 5%Z ->
        match_chunks_default example_database origin "M" = Ok rows).
Proof.
  apply (match_chunks_returns_k_nearest example_database origin "M" 5).
  - apply (run_reachable 0%Z example_script empty_database).
    + apply reachable_empty.
    + reflexivity.
  - apply repeat_length.
  - lia.
Defined.

(** C1 as stated fails on a negative count, and on a query vector of
    another dimension than the stored embeddings. *)
Lemma match_chunks_refuses_negative_count_and_short_query :
  match_chunks example_database origin "M" (-1)
  = Err limit_must_not_be_negative
  /\ match_chunks example_database [0%Z; 0%Z] "M" 5
     = Err (dimension_mismatch 3072 2).
Proof. split; reflexivity. Qed.

Lemma match_chunks_similarity_witness :
  exists rows,
    match_chunks example_database origin "M" 5 = Ok rows
    /\ forall r, In r rows ->
       exists c e,
         In c (chunks example_database)
         /\ chunks_embedding c = Some e
         /\ similarity r = Some (float8_mi float8_one (vector_cosine e origin))
         /\ id r = chunks_id c
         /\ meeting_id r = chunks_meeting_id c
         /\ speaker r = chunks_speaker c
         /\ start_seconds r = chunks_start_seconds c
         /\ end_seconds r = chunks_end_seconds c
         /\ topic r = chunks_topic c
         /\ text r = chunks_text c
         /\ embedding r = Some e
         /\ created_at r = chunks_created_at c.
Proof.
  eexists. split.
  - reflexivity.
  - apply (match_chunks_similarity example_database origin "M" 5).
    reflexivity.
Defined.

Lemma match_chunks_empty_meeting_witness :
  match_chunks example_database origin "empty" 5 = Ok []
  /\ (forall K' rows r,
        match_chunks example_database origin "empty" K' = Ok rows ->
        In r rows -> embedding r <> None).
Proof.
  destruct (match_chunks_empty_meeting example_database origin "empty" 5)
    as [Hempty Hnull].
  - lia.
  - split; [apply Hempty; reflexivity | exact Hnull].
Defined.

(** C3 as stated fails on a negative count: the call raises, empty
    meeting or not. *)
Lemma match_chunks_empty_meeting_negative_count :
  embedded_chunk_count "empty" (chunks example_database) = 0
  /\ match_chunks example_database origin "empty" (-1)
     = Err limit_must_not_be_negative.
Proof. split; reflexivity. Qed.

Lemma embedding_dimension_end_to_end_witness :
  match_chunks example_database [1%Z; 2%Z] "M" 5
  = Err (dimension_mismatch 3072 2)
  /\ match_chunks example_database [1%Z; 2%Z] "empty" 5 = Ok []
  /\ forall K a b,
       match_chunks example_database origin "M" K
       <> Err (dimension_mismatch a b).
Proof.
  destruct (@embedding_dimension_end_to_end integer_numeric)
    as [_ [_ [_ H]]].
  assert (Hr : reachable example_database).
  { apply (run_reachable 0%Z example_script empty_database).
    - apply reachable_empty.
    - reflexivity. }
  destruct (H example_database [1%Z; 2%Z] "M" Hr) as [Hshort _].
  destruct (H example_database [1%Z; 2%Z] "empty" Hr) as [_ [Hnone _]].
  destruct (H example_database origin "M" Hr) as [_ [_ [_ Hfull]]].
  split; [|split].
  - apply Hshort.
    + simpl. lia.
    + lia.
    + intros Hz. discriminate Hz.
  - apply Hnone.
    + simpl. lia.
    + lia.
    + reflexivity.
  - apply Hfull. apply repeat_length.
Defined.

(** C4 as stated fails: a query vector of length 2 is answered with the
    empty result, not refused, on a meeting without embedded chunks, and on
    any meeting when the count is zero. *)
Lemma match_chunks_short_query_not_refused :
  length [1%Z; 2%Z] <> 3072
  /\ match_chunks example_database [1%Z; 2%Z] "empty" 5 = Ok []
  /\ embedded_chunk_count "M" (chunks example_database) = 2
  /\ match_chunks example_database [1%Z; 2%Z] "M" 0 = Ok [].
Proof. split; [simpl; lia | repeat split]. Qed.

(* ================================================================== *)
(** * setup.sql: meeting status and cascading delete *)
(* ================================================================== *)

Lemma In_filter_other {row : Type} (fk : row -> uuid) (M : uuid)
  (rows : list row) (r : row) :
  In r (filter (fun x => negb (uuid_eqb (fk x) M)) rows) <->
  In r rows /\ fk r <> M.
Proof.
  rewrite filter_In, negb_true_iff. unfold uuid_eqb.
  rewrite String.eqb_neq. tauto.
Qed.

Lemma meeting_exists_filter (M : uuid) {N : PgNumeric}
  (ms : list meetings_row) :
  existsb (fun m => uuid_eqb (meetings_id m) M)
          (filter (fun m => negb (uuid_eqb (meetings_id m) M)) ms) = false.
Proof.
  induction ms as [|m ms IH]; simpl; [reflexivity|].
  destruct (uuid_eqb (meetings_id m) M) eqn:E; simpl; [exact IH|].
  rewrite E. exact IH.
Qed.

Section MeetingLifecycle.

Context {N : PgNumeric}.

(** C5 (as amended).  Under setup.sql, where [meetings.status] is NOT NULL
    DEFAULT 'uploaded' with the CHECK constraint [meetings_status_check]:
    in every reachable database state every meeting's status is one of the
    six values uploaded, asr_started, asr_done, indexed, summarized, error;
    an insert that leaves the status out stores 'uploaded'; and an insert
    or an update takes effect only if the status it leaves is one of the
    six. *)
Theorem meetings_status_enumerated :
  (forall db : database, reachable db ->
     forall m, In m (meetings db) ->
       meetings_status m = "uploaded" \/ meetings_status m = "asr_started"
       \/ meetings_status m = "asr_done" \/ meetings_status m = "indexed"
       \/ meetings_status m = "summarized" \/ meetings_status m = "error")
  /\ (forall now id title video_url consent (db db' : database),
        insert_meetings now id title video_url consent omitted db = Ok db' ->
        exists m, In m (meetings db') /\ meetings_id m = id
                  /\ meetings_status m = "uploaded")
  /\ (forall now st (db db' : database),
        statuses_checked db -> execute now st db = Ok db' ->
        statuses_checked db').
Proof.
  split; [|split].
  - intros db Hr m Hm.
    pose proof (reachable_statuses_checked db Hr m Hm) as H.
    unfold status_allowed, meetings_status_check in H. simpl in H.
    intuition auto.
  - intros now id0 title video_url consent db db' H.
    unfold insert_meetings in H. invert_ok H. simpl.
    eexists. split; [apply in_or_app; right; left; reflexivity|].
    simpl. split; reflexivity.
  - intros now st db db'. apply execute_statuses_checked.
Qed.

(** C6.  Deleting a meeting [M] removes in the same statement every file,
    utterance, chunk, summary and ASR job that references [M], and only
    those: afterwards no row of the five dependent tables references [M],
    and [M] itself is gone. *)
Theorem delete_meetings_removes_dependents (db : database) (M : uuid) :
  meeting_exists db M = true ->
  exists db',
    delete_meetings M db = Ok db'
    /\ meeting_exists db' M = false
    /\ (forall r, In r (files db') <->
                  In r (files db) /\ files_meeting_id r <> M)
    /\ (forall r, In r (utterances db') <->
                  In r (utterances db) /\ utterances_meeting_id r <> M)
    /\ (forall r, In r (chunks db') <->
                  In r (chunks db) /\ chunks_meeting_id r <> M)
    /\ (forall r, In r (summaries db') <->
                  In r (summaries db) /\ summaries_meeting_id r <> M)
    /\ (forall r, In r (asr_jobs db') <->
                  In r (asr_jobs db) /\ asr_jobs_meeting_id r <> M).
Proof.
  intros Hex. rewrite delete_meetings_cascades, Hex.
  eexists. split; [reflexivity|]. simpl.
  split; [exact (meeting_exists_filter M (meetings db))|].
  do 4 (split; [intros r; apply In_filter_other|]).
  intros r. apply In_filter_other.
Qed.

End MeetingLifecycle.

Lemma meetings_status_enumerated_witness :
  Forall (fun m =>
            meetings_status m = "uploaded" \/ meetings_status m = "asr_started"
            \/ meetings_status m = "asr_done" \/ meetings_status m = "indexed"
            \/ meetings_status m = "summarized" \/ meetings_status m = "error")
         (meetings example_database).
Proof.
  apply Forall_forall.
  apply (proj1 (@meetings_status_enumerated integer_numeric) example_database).
  apply (run_reachable 0%Z example_script empty_database).
  - apply reachable_empty.
  - reflexivity.
Defined.

(** C5 as stated fails under schemas/db.sql, whose [meetings] table has
    no constraint on [status]: an insert that relies on the column default
    stores 'processing', and an update to any text is accepted; neither
    value is one of the six. *)
Lemma db_sql_default_status_is_processing :
  exists rows rows',
    DbSql.insert_meetings 0%Z (Some "M") (Some "Weekly sync") omitted None
      omitted [] = Ok rows
    /\ map DbSql.meetings_status rows = [Some "processing"]
    /\ DbSql.update_meetings_status "M" (Some "archived") rows = Ok rows'
    /\ map DbSql.meetings_status rows' = [Some "archived"]
    /\ existsb (String.eqb "processing") meetings_status_check = false
    /\ existsb (String.eqb "archived") meetings_status_check = false.
Proof.
  eexists. eexists. split; [reflexivity|]. split; [reflexivity|].
  split; [reflexivity|]. repeat split.
Qed.

Lemma delete_meetings_removes_dependents_witness :
  exists db',
    delete_meetings "M" example_database = Ok db'
    /\ meeting_exists db' "M" = false
    /\ (forall r, In r (files db') <->
                  In r (files example_database) /\ files_meeting_id r <> "M")
    /\ (forall r, In r (utterances db') <->
                  In r (utterances example_database)
                  /\ utterances_meeting_id r <> "M")
    /\ (forall r, In r (chunks db') <->
                  In r (chunks example_database) /\ chunks_meeting_id r <> "M")
    /\ (forall r, In r (summaries db') <->
                  In r (summaries example_database)
                  /\ summaries_meeting_id r <> "M")
    /\ (forall r, In r (asr_jobs db') <->
                  In r (asr_jobs example_database)
                  /\ asr_jobs_meeting_id r <> "M").
Proof.
  apply (delete_meetings_removes_dependents example_database "M").
  reflexivity.
Defined.

(** After the delete the three chunks of [M] are gone. *)
Example delete_meetings_example :
  match delete_meetings "M" example_database with
  | Ok db' => (length (chunks example_database), length (chunks db'),
               map meetings_id (meetings db'))
  | Err _ => (0, 0, [])
  end = (3, 0, ["empty"]).
Proof. reflexivity. Qed.

(* ================================================================== *)
(** * The HTTP helpers *)
(* ================================================================== *)

Module JsFacts.
Import Js.

Lemma to_json_Obj (ms : list (string * value)) :
  to_json (Obj ms) = Some (JObj (json_members ms)).
Proof. reflexivity. Qed.

Lemma to_json_undefined (v : value) : to_json v = None <-> v = Undefined.
Proof.
  split.
  - destruct v as [| |b|n|s|xs|ms]; simpl; try discriminate; auto.
    destruct n; discriminate.
  - intros ->. reflexivity.
Qed.

Lemma to_json_defined (v : value) :
  v <> Undefined -> exists j, to_json v = Some j.
Proof.
  intros H. destruct (to_json v) as [j|] eqn:E.
  - exists j. reflexivity.
  - apply to_json_undefined in E. contradiction.
Qed.

Lemma truthy_defined (v : value) :
  truthy v = true -> v <> Undefined /\ v <> Null.
Proof. destruct v; simpl; intros H; split; discriminate. Qed.

Lemma or_defined (a b : value) :
  b <> Undefined -> b <> Null ->
  logical_or a b <> Undefined /\ logical_or a b <> Null.
Proof.
  intros Hu Hn. unfold logical_or. destruct (truthy a) eqn:E.
  - apply truthy_defined. exact E.
  - split; assumption.
Qed.

Lemma or_not_undefined (a b : value) :
  b <> Undefined -> logical_or a b <> Undefined.
Proof.
  intros Hu. unfold logical_or. destruct (truthy a) eqn:E.
  - apply truthy_defined. exact E.
  - exact Hu.
Qed.

Lemma default_defined (v fallback : value) :
  fallback <> Undefined -> default v fallback <> Undefined.
Proof. destruct v; simpl; intros H; try discriminate. exact H. Qed.

End JsFacts.

Section FetchClient.

Import Js.

Variable fetch : string -> Client.fetch_options -> promise Client.response.

(** C9.  Whatever response [fetch] gives, [request] throws exactly when the
    response is not ok, and then the error's message is the status code,
    a space, and the status text; when the response is ok, [request] gives
    the parsed body, or [{}] when the body is not JSON. *)
Theorem request_throws_iff_not_ok (url : string)
  (options : Client.fetch_options) (res : Client.response) :
  fetch url options = fulfilled res ->
  (Client.ok res = false ->
   Client.request fetch url options
   = rejected (Error (NilZero.string_of_uint (Nat.to_uint (Client.status res))
                      ++ " " ++ Client.statusText res)%string))
  /\ (Client.ok res = true ->
      forall v, Client.json_body res = fulfilled v ->
                Client.request fetch url options = fulfilled v)
  /\ (Client.ok res = true ->
      forall e, Client.json_body res = rejected e ->
                Client.request fetch url options = fulfilled (Obj []))
  /\ ((exists e, Client.request fetch url options = rejected e)
      <-> Client.ok res = false).
Proof.
  intros Hres. unfold Client.request, Client.request_response.
  rewrite Hres. split; [|split; [|split]].
  - intros ->. reflexivity.
  - intros -> v ->. reflexivity.
  - intros -> e ->. reflexivity.
  - destruct (Client.ok res); simpl; split.
    + intros [e He]. destruct (Client.json_body res); discriminate.
    + discriminate.
    + reflexivity.
    + intros _. eexists. reflexivity.
Qed.

End FetchClient.

Example request_404 :
  Client.request (fun _ _ => Js.fulfilled response_404)
    "http://localhost:8000/api/summarize?meeting_id=m1" Client.no_options
  = Js.rejected (Js.Error "404 Not Found").
Proof. reflexivity. Qed.

Example request_200_not_json :
  Client.request (fun _ _ => Js.fulfilled response_200_html)
    "http://localhost:8000/api/summarize?meeting_id=m1" Client.no_options
  = Js.fulfilled (Js.Obj []).
Proof. reflexivity. Qed.

Lemma request_throws_iff_not_ok_witness :
  Client.request (fun _ _ => Js.fulfilled response_404) "/api/chat"
    Client.no_options
  = Js.rejected (Js.Error "404 Not Found").
Proof.
  apply (request_throws_iff_not_ok (fun _ _ => Js.fulfilled response_404)
           "/api/chat" Client.no_options response_404 eq_refl).
  reflexivity.
Defined.

Section AxiosClient.

Import Js.

Variable api : Api.axios_request -> promise Api.axios_response.

(** C10 (as amended).  When the request succeeds, [getUtterances] resolves
    to the [items] of the response body when that value is truthy, and to
    the empty array otherwise: never to [null] or [undefined]; to [[]] when
    the body is missing, null or has no [items]; and to an array whenever
    [items] is an array. *)
Theorem getUtterances_items_or_empty (meeting_id : value)
  (r : Api.axios_response) :
  api (Api.utterances_request meeting_id) = fulfilled r ->
  exists v,
    Api.getUtterances api meeting_id = fulfilled v
    /\ v <> Null /\ v <> Undefined
    /\ v = (if truthy (get_optional (Api.response_data r) "items")
            then get_optional (Api.response_data r) "items" else Arr [])
    /\ (Api.response_data r = Undefined \/ Api.response_data r = Null
        \/ get (Api.response_data r) "items" = Undefined ->
        v = Arr [])
    /\ (forall xs, get (Api.response_data r) "items" = Arr xs -> v = Arr xs).
Proof.
  intros Hr. unfold Api.getUtterances, Api.api_get.
  change (api _) with (api (Api.utterances_request meeting_id)). rewrite Hr.
  simpl. eexists. split; [reflexivity|].
  unfold Api.items_or_empty.
  split; [|split; [|split; [|split]]].
  - apply JsFacts.or_defined; discriminate.
  - apply JsFacts.or_defined; discriminate.
  - reflexivity.
  - intros [H|[H|H]].
    + rewrite H. reflexivity.
    + rewrite H. reflexivity.
    + unfold get_optional.
      destruct (Api.response_data r); try reflexivity;
        rewrite H; reflexivity.
  - intros xs H. unfold get_optional.
    destruct (Api.response_data r); try discriminate H;
      rewrite H; reflexivity.
Qed.

End AxiosClient.

(** C10 as stated fails: a truthy [items] that is no array is handed back
    as it is. *)
Lemma getUtterances_not_always_array :
  Api.getUtterances (fun _ => Js.fulfilled response_items_string) (Js.Str "m1")
  = Js.fulfilled (Js.Str "oops")
  /\ Js.is_array (Js.Str "oops") = false.
Proof. split; reflexivity. Qed.

Lemma getUtterances_items_or_empty_witness :
  Api.getUtterances (fun _ => Js.fulfilled response_no_body) (Js.Str "m1")
  = Js.fulfilled (Js.Arr []).
Proof.
  destruct (getUtterances_items_or_empty
              (fun _ => Js.fulfilled response_no_body) (Js.Str "m1")
              response_no_body eq_refl)
    as [v [Hv [_ [_ [_ [Hmissing _]]]]]].
  rewrite Hv. f_equal. apply Hmissing. left. reflexivity.
Defined.

Section ChatRequests.

Import Js.

Variable Number : value -> number.

(** The JSON text [askChat] posts. *)
Lemma askChat_body_json (args : value) :
  exists k speaker time_end rerank,
    to_json (Api.askChat_body Number args)
    = Some (JObj (written "meeting_id" (get args "meeting_id")
                  ++ written "query" (get args "query")
                  ++ [("k", k);
                      ("filters", JObj [("speaker", speaker);
                                        ("time_start", JNull);
                                        ("time_end", time_end)]);
                      ("rerank", rerank)]))
    /\ (get args "k" = Undefined -> k = JNum 12 1)
    /\ (get args "rerank" = Undefined -> rerank = JBool true).
Proof.
  unfold Api.askChat_body. rewrite JsFacts.to_json_Obj.
  destruct (JsFacts.to_json_defined
              (default (get args "k") (Num (of_Z 12)))) as [k Hk].
  { apply JsFacts.default_defined. discriminate. }
  destruct (JsFacts.to_json_defined
              (default (get args "rerank") (Bool true))) as [rr Hrr].
  { apply JsFacts.default_defined. discriminate. }
  destruct (JsFacts.to_json_defined (logical_or (get args "speaker") Null))
    as [sp Hsp].
  { apply JsFacts.or_not_undefined. discriminate. }
  destruct (JsFacts.to_json_defined
              (if truthy (get args "time_end")
               then Num (Number (get args "time_end")) else Null))
    as [te Hte].
  { destruct (truthy (get args "time_end")); discriminate. }
  exists k, sp, te, rr. split; [|split].
  - unfold written. simpl json_members.
    rewrite Hk, Hrr, Hsp, Hte.
    destruct (to_json (get args "meeting_id")),
             (to_json (get args "query")); reflexivity.
  - intros H. rewrite H in Hk. simpl in Hk. inversion Hk. reflexivity.
  - intros H. rewrite H in Hrr. simpl in Hrr. inversion Hrr. reflexivity.
Qed.

(** [askChat] sends the request of [askChat_request] and keeps the data of
    the response. *)
Lemma askChat_sends (api : Api.axios_request -> promise Api.axios_response)
  (args : value) (req : Api.axios_request) :
  Api.askChat_request Number args = Some req ->
  Api.askChat api Number args = then_ (api req) Api.response_data.
Proof.
  unfold Api.askChat_request, Api.askChat, Api.api_post.
  destruct args; intros H; try discriminate H;
    injection H as <-; reflexivity.
Qed.

(** C7 (as amended).  A chat request sent through [askChat] is a POST to
    /chat whose JSON body always has the members [k] (12 by default),
    [filters] (with exactly [speaker], [time_start], [time_end]) and
    [rerank] (true by default), and has [meeting_id] and [query] exactly
    when the caller supplies them; a chat request sent through [chat] has
    no member but [meeting_id] and [query].  Both helpers hand back the
    parsed response body as it is. *)
Theorem chat_request_bodies :
  (forall args req,
     Api.askChat_request Number args = Some req ->
     Api.method req = "post" /\ Api.url req = "/chat"
     /\ exists body,
          Api.data req = Some body
          /\ member body "k" <> None
          /\ member body "rerank" <> None
          /\ (exists f, member body "filters" = Some f
                        /\ keys f = ["speaker"; "time_start"; "time_end"])
          /\ (member body "meeting_id" <> None
              <-> get args "meeting_id" <> Undefined)
          /\ (member body "query" <> None <-> get args "query" <> Undefined)
          /\ (get args "meeting_id" <> Undefined ->
              get args "query" <> Undefined ->
              keys body = ["meeting_id"; "query"; "k"; "filters"; "rerank"])
          /\ (get args "k" = Undefined -> member body "k" = Some (JNum 12 1))
          /\ (get args "rerank" = Undefined ->
              member body "rerank" = Some (JBool true)))
  /\ (forall meetingId query,
        Client.method (Client.chat_options meetingId query) = Some "POST"
        /\ exists body,
             Client.body (Client.chat_options meetingId query) = Some body
             /\ incl (keys body) ["meeting_id"; "query"]
             /\ (meetingId <> Undefined -> query <> Undefined ->
                 keys body = ["meeting_id"; "query"]))
  /\ (forall api args req r,
        Api.askChat_request Number args = Some req ->
        api req = fulfilled r ->
        Api.askChat api Number args = fulfilled (Api.response_data r))
  /\ (forall fetch API_BASE meetingId query res v,
        fetch (Client.ENDPOINTS_chat API_BASE)
              (Client.chat_options meetingId query) = fulfilled res ->
        Client.ok res = true -> Client.json_body res = fulfilled v ->
        Client.chat fetch API_BASE meetingId query = fulfilled v).
Proof.
  split; [|split; [|split]].
  - intros args req Hreq.
    assert (Hr : req = {| Api.method := "post"; Api.url := "/chat";
                          Api.params := [];
                          Api.data :=
                            to_json (Api.askChat_body Number args) |}).
    { unfold Api.askChat_request in Hreq.
      destruct args; try discriminate Hreq; inversion Hreq; reflexivity. }
    subst req. split; [reflexivity|]. split; [reflexivity|].
    destruct (askChat_body_json args)
      as [k [sp [te [rr [Hbody [Hk Hrr]]]]]].
    cbn [Api.data]. rewrite Hbody. eexists. split; [reflexivity|].
    unfold written.
    destruct (to_json (get args "meeting_id")) as [jm|] eqn:Em;
      destruct (to_json (get args "query")) as [jq|] eqn:Eq;
      simpl;
      repeat match goal with
        | |- _ /\ _ => split
        | |- _ <-> _ => split
        | |- exists f, Some ?x = Some f /\ _ => exists x
        end;
      try discriminate; try reflexivity;
      try (intros H; apply JsFacts.to_json_undefined in Em; congruence);
      try (intros H; apply JsFacts.to_json_undefined in Eq; congruence);
      try (intros _ H; apply JsFacts.to_json_undefined in H; congruence);
      try (intros H1 H2; apply JsFacts.to_json_undefined in Em; congruence);
      try (intros H1 H2; apply JsFacts.to_json_undefined in Eq; congruence);
      try (intros H; rewrite (Hk H); reflexivity);
      try (intros H; rewrite (Hrr H); reflexivity);
      try (intros _ H; rewrite Em in H; discriminate H);
      try (intros _ H; rewrite Eq in H; discriminate H).
  - intros meetingId query. split; [reflexivity|].
    unfold Client.chat_options. cbn [Client.body].
    rewrite JsFacts.to_json_Obj. eexists. split; [reflexivity|].
    simpl.
    destruct (to_json meetingId) as [jm|] eqn:Em;
      destruct (to_json query) as [jq|] eqn:Eq; simpl; split;
      try (intros x Hx; simpl in *; tauto);
      try (intros H1 H2; reflexivity);
      try (intros H1 H2; apply JsFacts.to_json_undefined in Em; congruence);
      try (intros H1 H2; apply JsFacts.to_json_undefined in Eq; congruence).
  - intros api args req r Hreq Hr.
    rewrite (askChat_sends api args req Hreq), Hr. reflexivity.
  - intros fetch API_BASE meetingId query res v Hres Hok Hv.
    unfold Client.chat, Client.request, Client.request_response.
    rewrite Hres, Hok, Hv. reflexivity.
Qed.

End ChatRequests.

Example askChat_example :
  Api.askChat_request (fun _ => Js.NaN) example_question
  = Some {| Api.method := "post"; Api.url := "/chat"; Api.params := [];
            Api.data :=
              Some (Js.JObj
                      [("meeting_id", Js.JStr "m1");
                       ("query", Js.JStr "What was decided?");
                       ("k", Js.JNum 12 1);
                       ("filters",
                        Js.JObj [("speaker", Js.JNull);
                                 ("time_start", Js.JNull);
                                 ("time_end", Js.JNull)]);
                       ("rerank", Js.JBool true)]) |}.
Proof. reflexivity. Qed.

Lemma chat_request_bodies_witness :
  exists req body,
    Api.askChat_request (fun _ => Js.NaN) example_question = Some req
    /\ Api.data req = Some body
    /\ Js.keys body = ["meeting_id"; "query"; "k"; "filters"; "rerank"].
Proof.
  destruct (proj1 (chat_request_bodies (fun _ => Js.NaN)) example_question
              _ eq_refl)
    as [_ [_ [body [Hdata [_ [_ [_ [_ [_ [Hkeys _]]]]]]]]]].
  eexists. exists body. split; [reflexivity|]. split; [exact Hdata|].
  apply Hkeys; discriminate.
Defined.

(** C7 as stated fails: the body [chat] writes has the members
    [meeting_id] and [query] and no other; [k], [filters] and [rerank] are
    not sent. *)
Lemma chat_sends_meeting_id_and_query_only :
  exists body,
    Client.body (Client.chat_options (Js.Str "m1") (Js.Str "What was decided?"))
    = Some body
    /\ Js.keys body = ["meeting_id"; "query"]
    /\ Js.member body "k" = None
    /\ Js.member body "filters" = None
    /\ Js.member body "rerank" = None.
Proof. eexists. repeat split. Qed.

(* ================================================================== *)
(** * setup.sql: keys and references in every reachable state *)
(* ================================================================== *)




Lemma existsb_string_In {A : Type} (key : A -> string) (k : string)
  (l : list A) :
  existsb (fun a => String.eqb (key a) k) l = true <-> In k (map key l).
Proof.
  rewrite existsb_exists, in_map_iff. split; intros [a Ha]; exists a.
  - destruct Ha as [Hin Heq]. apply String.eqb_eq in Heq. tauto.
  - destruct Ha as [Heq Hin]. split; [exact Hin|]. apply String.eqb_eq.
    exact Heq.
Qed.

Lemma existsb_string_absent {A : Type} (key : A -> string) (k : string)
  (l : list A) :
  existsb (fun a => String.eqb (key a) k) l = false <-> ~ In k (map key l).
Proof.
  split; intros H.
  - intros Hin. apply (existsb_string_In key) in Hin. congruence.
  - destruct (existsb (fun a => String.eqb (key a) k) l) eqn:E;
      [|reflexivity].
    apply (existsb_string_In key) in E. contradiction.
Qed.

Lemma rekey_other (k k' x : string) : k' = k \/ x <> k -> rekey k k' x = x.
Proof.
  unfold rekey. intros H. destruct (String.eqb_spec x k) as [->|Hne].
  - destruct H as [H|H]; [exact H | contradiction].
  - reflexivity.
Qed.

Lemma map_result_rekeyed {A : Type} (key : A -> string) (k k' : string)
  (f : A -> result A) (l l' : list A) :
  (forall a b, In a l -> f a = Ok b -> key b = rekey k k' (key a)) ->
  map_result f l = Ok l' -> map key l' = map (rekey k k') (map key l).
Proof.
  revert l'. induction l as [|a l IH]; intros l' Hk H; simpl in H.
  - inversion H. reflexivity.
  - destruct (f a) as [b|e] eqn:Ha; simpl in H; [|discriminate].
    destruct (map_result f l) as [bs|e]; simpl in H; [|discriminate].
    inversion H. subst. simpl. f_equal.
    + apply (Hk a b); [left; reflexivity | exact Ha].
    + apply IH; [|reflexivity]. intros a' b' Ha' Hf.
      apply (Hk a' b'); [right; exact Ha' | exact Hf].
Qed.


Lemma on_update_no_action_ok {row : Type} (constraint : string)
  (fk : row -> uuid) (old : uuid) (rows : list row) (u : unit) :
  on_update_no_action constraint fk old rows = Ok u ->
  forall r, In r rows -> fk r <> old.
Proof.
  unfold on_update_no_action. intros H r Hr Heq.
  destruct (existsb (fun r0 => uuid_eqb (fk r0) old) rows) eqn:E;
    [discriminate|].
  apply (existsb_string_absent fk old rows) in E. apply E.
  apply in_map_iff. exists r. split; assumption.
Qed.

Section KeyFacts.

Context {N : PgNumeric}.

Lemma meeting_exists_In (db : database) (m : uuid) :
  meeting_exists db m = true <-> In m (map meetings_id (meetings db)).
Proof. apply (existsb_string_In meetings_id). Qed.


Lemma update_meetings_row_key (now : timestamptz) (a : meetings_assignment)
  (old new : meetings_row) :
  update_meetings_row now a old = Ok new ->
  meetings_id new = meetings_key_after (meetings_id old) a
  /\ meetings_updated_at new = now.
Proof.
  unfold update_meetings_row, meetings_key_after. intros H.
  destruct (set_id a) as [|[k|]]; simpl in H; try discriminate H;
    invert_ok H; simpl; split; reflexivity.
Qed.

(** What [UPDATE meetings] does to the keys: the selected key moves, only
    when nothing stands in its way and nothing references it; the other
    tables are not written. *)
Lemma update_meetings_keys (now : timestamptz) (id : uuid)
  (a : meetings_assignment) (db db' : database) :
  update_meetings now id a db = Ok db' ->
  map meetings_id (meetings db')
  = map (rekey id (meetings_key_after id a)) (map meetings_id (meetings db))
  /\ (meetings_key_after id a = id
      \/ meeting_exists db id = false
      \/ (meeting_exists db (meetings_key_after id a) = false
          /\ (forall r, In r (files db) -> files_meeting_id r <> id)
          /\ (forall r, In r (utterances db) -> utterances_meeting_id r <> id)
          /\ (forall r, In r (chunks db) -> chunks_meeting_id r <> id)
          /\ (forall r, In r (summaries db) -> summaries_meeting_id r <> id)
          /\ (forall r, In r (asr_jobs db) -> asr_jobs_meeting_id r <> id)))
  /\ files db' = files db /\ utterances db' = utterances db
  /\ chunks db' = chunks db /\ summaries db' = summaries db
  /\ asr_jobs db' = asr_jobs db.
Proof.
  unfold update_meetings. intros H. invert_ok H. simpl.
  split; [|split; [|repeat split]].
  - eapply map_result_rekeyed; [|exact E].
    intros m b _ Hf. simpl in Hf. unfold rekey, uuid_eqb in *.
    destruct (String.eqb_spec (meetings_id m) id) as [Em|Em].
    + destruct (update_meetings_row_key now a m b Hf) as [Hk _].
      rewrite Hk, Em. reflexivity.
    + inversion Hf. reflexivity.
  - unfold meetings_new_key in E0. unfold meetings_key_after.
    destruct (set_id a) as [|[k|]]; [left; reflexivity | | left; reflexivity].
    destruct (meeting_exists db id) eqn:Ex; [|right; left; reflexivity].
    unfold uuid_eqb in E0.
    destruct (String.eqb_spec k id) as [Ek|Ek]; simpl in E0;
      [left; exact Ek|].
    right. right.
    destruct (meeting_exists db k) eqn:Ek'; [discriminate E0|].
    split; [reflexivity|]. invert_ok E0.
    repeat split; eapply on_update_no_action_ok; eassumption.
Qed.

(** A dependent row keeps its meeting through [UPDATE meetings]. *)
Lemma update_meetings_keeps_referenced (now : timestamptz) (id : uuid)
  (a : meetings_assignment) (db db' : database) (m : uuid) :
  update_meetings now id a db = Ok db' ->
  meeting_exists db m = true ->
  meetings_key_after id a = id \/ m <> id ->
  meeting_exists db' m = true.
Proof.
  intros H Hex Hm.
  destruct (update_meetings_keys now id a db db' H) as (Hids & _).
  apply meeting_exists_In. rewrite Hids. apply meeting_exists_In in Hex.
  apply in_map_iff. exists m. split; [|exact Hex].
  apply rekey_other. exact Hm.
Qed.

End KeyFacts.

Section ReferenceFacts.

Context {N : PgNumeric}.

Lemma references_meeting_ok (constraint : string) (db : database) (m : uuid)
  (u : unit) :
  references_meeting constraint db m = Ok u -> meeting_exists db m = true.
Proof.
  unfold references_meeting. destruct (meeting_exists db m); intros H.
  - reflexivity.
  - discriminate.
Qed.

(** The meeting a selected row gets from an UPDATE of a dependent table
    exists: it is the one the row had, or the statement looked it up. *)
Lemma references_after_update_ok {row : Type} (constraint : string)
  (db : database) (selected : row -> bool) (fk : row -> uuid)
  (new : column_input uuid) (rows : list row) (u : unit) (old : row)
  (m : uuid) :
  references_after_update constraint db selected fk new rows = Ok u ->
  In old rows -> selected old = true ->
  meeting_exists db (fk old) = true ->
  not_null "meeting_id" (resolve (Some (fk old)) new) = Ok m ->
  meeting_exists db m = true.
Proof.
  unfold references_after_update. intros H Hold Hsel Hex Hm.
  destruct new as [|[k|]]; simpl in Hm; try discriminate Hm.
  - inversion Hm. subst. exact Hex.
  - inversion Hm. subst k.
    destruct (existsb (fun r => selected r && negb (uuid_eqb (fk r) m)) rows)
      eqn:E.
    + eapply references_meeting_ok. exact H.
    + destruct (uuid_eqb (fk old) m) eqn:Em.
      * apply String.eqb_eq in Em. rewrite <- Em. exact Hex.
      * assert (Ht : existsb (fun r => selected r && negb (uuid_eqb (fk r) m))
                       rows = true).
        { apply existsb_exists. exists old. split; [exact Hold|].
          rewrite Hsel, Em. reflexivity. }
        congruence.
Qed.

Lemma meeting_exists_after_insert (ms : list meetings_row) (new : meetings_row)
  (m : uuid) :
  existsb (fun x => uuid_eqb (meetings_id x) m) ms = true ->
  existsb (fun x => uuid_eqb (meetings_id x) m) (ms ++ [new]) = true.
Proof. intros H. rewrite existsb_app, H. reflexivity. Qed.

Lemma meeting_exists_after_delete (ms : list meetings_row) (deleted m : uuid) :
  m <> deleted ->
  existsb (fun x => uuid_eqb (meetings_id x) m) ms = true ->
  existsb (fun x => uuid_eqb (meetings_id x) m)
    (filter (fun x => negb (uuid_eqb (meetings_id x) deleted)) ms) = true.
Proof.
  intros Hne H. apply existsb_exists in H. destruct H as [x [Hx Heq]].
  apply existsb_exists. exists x. split; [|exact Heq].
  apply filter_In. split; [exact Hx|].
  apply negb_true_iff. apply String.eqb_neq.
  apply String.eqb_eq in Heq. congruence.
Qed.

End ReferenceFacts.

(** Rows of a table after [INSERT]: the old rows or the new one. *)
Ltac old_or_new H :=
  simpl in H; apply in_app_or in H; destruct H as [H|[<-|[]]].


Section Preservation.

Context {N : PgNumeric}.

Lemma execute_foreign_keys_valid (now : timestamptz) (st : statement)
  (db db' : database) :
  foreign_keys_valid db -> execute now st db = Ok db' ->
  foreign_keys_valid db'.
Proof.
  intros (Hf & Hu & Hc & Hs & Hj) H. destruct st; simpl in H.
  - (* INSERT INTO meetings *)
    unfold insert_meetings in H. invert_ok H.
    unfold foreign_keys_valid, meeting_exists. simpl.
    repeat split; intros r Hr; apply meeting_exists_after_insert;
      [apply Hf | apply Hu | apply Hc | apply Hs | apply Hj]; exact Hr.
  - (* UPDATE meetings *)
    destruct (update_meetings_keys _ _ _ _ _ H)
      as (_ & Hcase & Ef & Eu & Ec & Es & Ej).
    pose proof (fun m => update_meetings_keeps_referenced _ _ _ _ _ m H)
      as Hkeep.
    unfold foreign_keys_valid. rewrite Ef, Eu, Ec, Es, Ej.
    destruct Hcase as [Hk|[Hx|(_ & Nf & Nu & Nc & Ns & Nj)]].
    + repeat split; intros r Hr; apply Hkeep; auto.
    + repeat split; intros r Hr; apply Hkeep; auto; right; intros Heq;
        [specialize (Hf r Hr) | specialize (Hu r Hr) | specialize (Hc r Hr)
         | specialize (Hs r Hr) | specialize (Hj r Hr)]; congruence.
    + repeat split; intros r Hr; apply Hkeep; auto.
  - (* DELETE FROM meetings *)
    rewrite delete_meetings_cascades in H. invert_ok H.
    + unfold foreign_keys_valid, meeting_exists. simpl.
      repeat split; intros r Hr; apply filter_In in Hr;
        destruct Hr as [Hr Hne]; apply negb_true_iff in Hne;
        apply String.eqb_neq in Hne;
        (apply meeting_exists_after_delete; [exact Hne|]);
        [apply Hf | apply Hu | apply Hc | apply Hs | apply Hj]; exact Hr.
    + repeat split; assumption.
  - (* INSERT INTO files *)
    unfold insert_files in H. invert_ok H.
    unfold foreign_keys_valid, meeting_exists. simpl.
    repeat split; try assumption.
    intros r Hr. old_or_new Hr; [apply Hf; exact Hr|].
    simpl. eapply references_meeting_ok. eassumption.
  - (* UPDATE files *)
    unfold update_files in H. invert_ok H.
    unfold foreign_keys_valid. simpl.
    repeat split; try assumption.
    intros r Hr.
    destruct (map_result_In _ _ _ _ E Hr) as [old [Hold Hfr]].
    destruct (files_id old =? _)%Z eqn:Esel.
    + unfold update_files_row in Hfr. invert_ok Hfr. simpl.
      eapply (references_after_update_ok _ db _ files_meeting_id _ _ _ old);
        [exact E0 | exact Hold | exact Esel | apply Hf; exact Hold
         | eassumption].
    + inversion Hfr. subst. apply Hf. exact Hold.
  - (* DELETE FROM files *)
    unfold delete_files in H. invert_ok H.
    unfold foreign_keys_valid. simpl.
    repeat split; try assumption.
    intros r Hr. apply filter_In in Hr. apply Hf. tauto.
  - (* INSERT INTO utterances *)
    unfold insert_utterances in H. invert_ok H.
    unfold foreign_keys_valid, meeting_exists. simpl.
    repeat split; try assumption.
    intros r Hr. old_or_new Hr; [apply Hu; exact Hr|].
    simpl. eapply references_meeting_ok. eassumption.
  - (* UPDATE utterances *)
    unfold update_utterances in H. invert_ok H.
    unfold foreign_keys_valid. simpl.
    repeat split; try assumption.
    intros r Hr.
    destruct (map_result_In _ _ _ _ E Hr) as [old [Hold Hfr]].
    destruct (utterances_id old =? _)%Z eqn:Esel.
    + unfold update_utterances_row in Hfr. invert_ok Hfr. simpl.
      eapply (references_after_update_ok _ db _ utterances_meeting_id _ _ _
                old);
        [exact E0 | exact Hold | exact Esel | apply Hu; exact Hold
         | eassumption].
    + inversion Hfr. subst. apply Hu. exact Hold.
  - (* DELETE FROM utterances *)
    unfold delete_utterances in H. invert_ok H.
    unfold foreign_keys_valid. simpl.
    repeat split; try assumption.
    intros r Hr. apply filter_In in Hr. apply Hu. tauto.
  - (* INSERT INTO chunks *)
    unfold insert_chunks in H. invert_ok H.
    unfold foreign_keys_valid, meeting_exists. simpl.
    repeat split; try assumption.
    intros r Hr. old_or_new Hr; [apply Hc; exact Hr|].
    simpl. eapply references_meeting_ok. eassumption.
  - (* UPDATE chunks *)
    unfold update_chunks in H. invert_ok H.
    unfold foreign_keys_valid. simpl.
    repeat split; try assumption.
    intros r Hr.
    destruct (map_result_In _ _ _ _ E0 Hr) as [old [Hold Hfr]].
    destruct (chunks_id old =? _)%Z eqn:Esel.
    + unfold update_chunks_row in Hfr. invert_ok Hfr. simpl.
      eapply (references_after_update_ok _ db _ chunks_meeting_id _ _ _ old);
        [exact E1 | exact Hold | exact Esel | apply Hc; exact Hold
         | eassumption].
    + inversion Hfr. subst. apply Hc. exact Hold.
  - (* DELETE FROM chunks *)
    unfold delete_chunks in H. invert_ok H.
    unfold foreign_keys_valid. simpl.
    repeat split; try assumption.
    intros r Hr. apply filter_In in Hr. apply Hc. tauto.
  - (* INSERT INTO summaries *)
    unfold insert_summaries in H. invert_ok H.
    unfold foreign_keys_valid, meeting_exists. simpl.
    repeat split; try assumption.
    intros r Hr. old_or_new Hr; [apply Hs; exact Hr|].
    simpl. eapply references_meeting_ok. eassumption.
  - (* UPDATE summaries *)
    unfold update_summaries in H. invert_ok H.
    unfold foreign_keys_valid. simpl.
    repeat split; try assumption.
    intros r Hr.
    destruct (map_result_In _ _ _ _ E Hr) as [old [Hold Hfr]].
    destruct (uuid_eqb (summaries_meeting_id old) _) eqn:Esel.
    + assert (Hex : summary_exists db meeting_id0 = true).
      { apply existsb_exists. exists old. split; assumption. }
      unfold update_summaries_row in Hfr.
      destruct (set_summaries_meeting_id a) as [|[k|]]; simpl in Hfr;
        try discriminate Hfr; invert_ok Hfr; simpl.
      * apply Hs. exact Hold.
      * rewrite Hex in E0. simpl in E0.
        destruct (uuid_eqb k meeting_id0) eqn:Ek; simpl in E0.
        -- apply String.eqb_eq in Ek, Esel. rewrite Ek, <- Esel.
           apply Hs. exact Hold.
        -- destruct (summary_exists db k); [discriminate E0|].
           eapply references_meeting_ok. exact E0.
    + inversion Hfr. subst. apply Hs. exact Hold.
  - (* DELETE FROM summaries *)
    unfold delete_summaries in H. invert_ok H.
    unfold foreign_keys_valid. simpl.
    repeat split; try assumption.
    intros r Hr. apply filter_In in Hr. apply Hs. tauto.
  - (* INSERT INTO asr_jobs *)
    unfold insert_asr_jobs in H. invert_ok H.
    unfold foreign_keys_valid, meeting_exists. simpl.
    repeat split; try assumption.
    intros r Hr. old_or_new Hr; [apply Hj; exact Hr|].
    simpl. eapply references_meeting_ok. eassumption.
  - (* UPDATE asr_jobs *)
    unfold update_asr_jobs in H. invert_ok H.
    unfold foreign_keys_valid. simpl.
    repeat split; try assumption.
    intros r Hr.
    destruct (map_result_In _ _ _ _ E Hr) as [old [Hold Hfr]].
    destruct (String.eqb (asr_jobs_id old) _) eqn:Esel.
    + unfold update_asr_jobs_row in Hfr. invert_ok Hfr. simpl.
      eapply (references_after_update_ok _ db _ asr_jobs_meeting_id _ _ _
                old);
        [exact E1 | exact Hold | exact Esel | apply Hj; exact Hold
         | eassumption].
    + inversion Hfr. subst. apply Hj. exact Hold.
  - (* DELETE FROM asr_jobs *)
    unfold delete_asr_jobs in H. invert_ok H.
    unfold foreign_keys_valid. simpl.
    repeat split; try assumption.
    intros r Hr. apply filter_In in Hr. apply Hj. tauto.
Qed.

End Preservation.

Section UniqueKeyFacts.

Context {N : PgNumeric}.




Lemma update_summaries_row_key (now : timestamptz) (a : summaries_assignment)
  (old new : summaries_row) :
  update_summaries_row now a old = Ok new ->
  summaries_meeting_id new
  = key_after (summaries_meeting_id old) (set_summaries_meeting_id a)
  /\ summaries_updated_at new = now.
Proof.
  unfold update_summaries_row, key_after. intros H.
  destruct (set_summaries_meeting_id a) as [|[k|]]; simpl in H;
    try discriminate H; invert_ok H; simpl; split; reflexivity.
Qed.

Lemma update_asr_jobs_row_key (now : timestamptz) (a : asr_jobs_assignment)
  (old new : asr_jobs_row) :
  update_asr_jobs_row now a old = Ok new ->
  asr_jobs_id new = key_after (asr_jobs_id old) (set_asr_jobs_id a)
  /\ asr_jobs_updated_at new = now.
Proof.
  unfold update_asr_jobs_row, key_after. intros H.
  destruct (set_asr_jobs_id a) as [|[k|]]; simpl in H;
    try discriminate H; invert_ok H; simpl; split; reflexivity.
Qed.




Lemma update_files_row_kind (a : files_assignment) (old new : files_row) :
  update_files_row a old = Ok new -> In (files_kind new) files_kind_check.
Proof.
  unfold update_files_row. intros H. invert_ok H.
  match goal with
  | Hk : check_in _ _ _ = Ok _ |- _ => exact (check_in_ok _ _ _ _ Hk)
  end.
Qed.

Lemma update_asr_jobs_row_status (now : timestamptz) (a : asr_jobs_assignment)
  (old new : asr_jobs_row) :
  update_asr_jobs_row now a old = Ok new ->
  In (asr_jobs_status new) asr_jobs_status_check.
Proof.
  unfold update_asr_jobs_row. intros H. invert_ok H.
  match goal with
  | Hk : check_in _ _ _ = Ok _ |- _ => exact (check_in_ok _ _ _ _ Hk)
  end.
Qed.

Lemma execute_enumerations_checked (now : timestamptz) (st : statement)
  (db db' : database) :
  enumerations_checked db -> execute now st db = Ok db' ->
  enumerations_checked db'.
Proof.
  intros [Hf Hj] H.
  destruct st; simpl in H;
    try (unfold_statement H; invert_ok H; split; assumption).
  - (* DELETE FROM meetings *)
    rewrite delete_meetings_cascades in H. invert_ok H.
    + split; simpl; intros r Hr; apply filter_In in Hr;
        [apply Hf | apply Hj]; tauto.
    + split; assumption.
  - (* INSERT INTO files *)
    unfold insert_files in H. invert_ok H. split; [|exact Hj].
    intros r Hr. old_or_new Hr; [apply Hf; exact Hr|].
    match goal with
    | Hk : check_in _ _ _ = Ok _ |- _ => exact (check_in_ok _ _ _ _ Hk)
    end.
  - (* UPDATE files *)
    unfold update_files in H. invert_ok H. split; [|exact Hj].
    intros r Hr. simpl in Hr.
    destruct (map_result_In _ _ _ _ E Hr) as [old [Hold Hfr]].
    destruct (files_id old =? _)%Z.
    + apply (update_files_row_kind _ _ _ Hfr).
    + inversion Hfr. subst. apply Hf. exact Hold.
  - (* DELETE FROM files *)
    unfold delete_files in H. invert_ok H. split; [|exact Hj].
    intros r Hr. simpl in Hr. apply filter_In in Hr. apply Hf. tauto.
  - (* INSERT INTO asr_jobs *)
    unfold insert_asr_jobs in H. invert_ok H. split; [exact Hf|].
    intros r Hr. old_or_new Hr; [apply Hj; exact Hr|].
    match goal with
    | Hk : check_in _ _ _ = Ok _ |- _ => exact (check_in_ok _ _ _ _ Hk)
    end.
  - (* UPDATE asr_jobs *)
    unfold update_asr_jobs in H. invert_ok H. split; [exact Hf|].
    intros r Hr. simpl in Hr.
    destruct (map_result_In _ _ _ _ E Hr) as [old [Hold Hfr]].
    destruct (String.eqb (asr_jobs_id old) _).
    + apply (update_asr_jobs_row_status _ _ _ _ Hfr).
    + inversion Hfr. subst. apply Hj. exact Hold.
  - (* DELETE FROM asr_jobs *)
    unfold delete_asr_jobs in H. invert_ok H. split; [exact Hf|].
    intros r Hr. simpl in Hr. apply filter_In in Hr. apply Hj. tauto.
Qed.

End UniqueKeyFacts.

Section ReachableStates.

Context {N : PgNumeric}.

(** X1.  In every reachable state every stored embedding has the 3072
    dimensions of its column, because an INSERT that brings an embedding of
    another length is refused with a dimension error, whatever else it
    brings. *)
Theorem stored_embeddings_have_column_dimension :
  (forall db : database, reachable db ->
     forall c e, In c (chunks db) -> chunks_embedding c = Some e ->
                 length e = 3072)
  /\ (forall now meeting_id speaker start_seconds end_seconds topic text
             (e : vector) (db : database),
        length e <> 3072 ->
        insert_chunks now meeting_id speaker start_seconds end_seconds topic
          text (Some e) db
        = Err (dimension_mismatch 3072 (length e))).
Proof.
  split.
  - intros db Hr. exact (reachable_embeddings_typed db Hr).
  - intros now m sp st en tp tx e db Hlen.
    unfold insert_chunks, store_vector, chunks_embedding_dim.
    destruct (Nat.eqb (length e) EMBEDDING_DIM) eqn:El.
    + apply Nat.eqb_eq in El. contradiction.
    + reflexivity.
Qed.

(** X2.  In every reachable state every file, utterance, chunk, summary and
    ASR job references a meeting that is in the [meetings] table. *)
Theorem dependent_rows_reference_meetings (db : database) :
  reachable db -> foreign_keys_valid db.
Proof.
  induction 1 as [|db now st db' _ IH H].
  - repeat split; intros r [].
  - eapply execute_foreign_keys_valid; eassumption.
Qed.


(** X4.  In every reachable state every file's kind is one of upload,
    narration, summary, other, and every ASR job's status is one of queued,
    processing, completed, error: the two CHECK constraints hold after
    INSERT and after UPDATE alike.  An ASR job inserted without a status
    is 'queued'.  An UPDATE that sets the status of an existing job, or the
    kind of an existing file, to another value is refused with the check
    violation. *)
Theorem kinds_and_job_statuses_enumerated :
  (forall db : database, reachable db ->
     (forall f, In f (files db) ->
        In (files_kind f) ["upload"; "narration"; "summary"; "other"])
     /\ (forall j, In j (asr_jobs db) ->
           In (asr_jobs_status j)
              ["queued"; "processing"; "completed"; "error"]))
  /\ (forall now id meeting_id provider callback_url error raw
             (db db' : database),
        insert_asr_jobs now (Some id) meeting_id provider callback_url
          omitted error raw db = Ok db' ->
        exists j, In j (asr_jobs db') /\ asr_jobs_id j = id
                  /\ asr_jobs_status j = "queued")
  /\ (forall now id s (db : database),
        ~ In s ["queued"; "processing"; "completed"; "error"] ->
        asr_job_exists db id = true ->
        update_asr_jobs now id (set_asr_job_status s) db
        = Err (check_violation "asr_jobs_status_check"))
  /\ (forall id k (db : database) f,
        ~ In k ["upload"; "narration"; "summary"; "other"] ->
        In f (files db) -> files_id f = id ->
        update_files id (set_file_kind k) db
        = Err (check_violation "files_kind_check")).
Proof.
  split; [|split; [|split]].
  - induction 1 as [|db now st db' _ IH H].
    + split; intros r [].
    + exact (execute_enumerations_checked now st db db' IH H).
  - intros now id0 m p cb er raw db db' H.
    unfold insert_asr_jobs in H. invert_ok H. simpl.
    match goal with
    | Hn : not_null "id" (Some _) = Ok _ |- _ =>
        simpl in Hn; injection Hn as <-
    end.
    eexists. split; [apply in_or_app; right; left; reflexivity|].
    simpl. split; reflexivity.
  - intros now id0 s db Hs Hex.
    assert (Hc : check_in "asr_jobs_status_check" asr_jobs_status_check s
                 = Err (check_violation "asr_jobs_status_check")).
    { unfold check_in.
      destruct (existsb (String.eqb s) asr_jobs_status_check) eqn:E;
        [|reflexivity].
      apply existsb_exists in E. destruct E as [v [Hv Heq]].
      apply String.eqb_eq in Heq. subst v. contradiction. }
    unfold update_asr_jobs.
    rewrite (map_result_raises _ (check_violation "asr_jobs_status_check"));
      [reflexivity | |].
    + intros j _. destruct (String.eqb (asr_jobs_id j) id0); [|right; eauto].
      left. unfold update_asr_jobs_row. simpl. rewrite Hc. reflexivity.
    + unfold asr_job_exists in Hex. apply existsb_exists in Hex.
      destruct Hex as [j [Hj Heq]]. exists j. split; [exact Hj|].
      rewrite Heq. unfold update_asr_jobs_row. simpl. rewrite Hc.
      reflexivity.
  - intros id0 k db f Hk Hf Hid.
    assert (Hc : check_in "files_kind_check" files_kind_check k
                 = Err (check_violation "files_kind_check")).
    { unfold check_in.
      destruct (existsb (String.eqb k) files_kind_check) eqn:E;
        [|reflexivity].
      apply existsb_exists in E. destruct E as [v [Hv Heq]].
      apply String.eqb_eq in Heq. subst v. contradiction. }
    unfold update_files.
    rewrite (map_result_raises _ (check_violation "files_kind_check"));
      [reflexivity | |].
    + intros r _. destruct (files_id r =? id0)%Z; [|right; eauto].
      left. unfold update_files_row. simpl. rewrite Hc. reflexivity.
    + exists f. split; [exact Hf|].
      rewrite Hid, Z.eqb_refl. unfold update_files_row. simpl. rewrite Hc.
      reflexivity.
Qed.

End ReachableStates.

Lemma populated_database_reachable : reachable populated_database.
Proof.
  apply (run_reachable 0%Z populated_script empty_database).
  - apply reachable_empty.
  - reflexivity.
Qed.

Example populated_database_rows :
  (length (meetings populated_database), length (files populated_database),
   length (utterances populated_database), length (chunks populated_database),
   map summaries_payload (summaries populated_database),
   map asr_jobs_status (asr_jobs populated_database))
  = (2, 1, 1, 3, [jsonb_object [("overview", jsonb_string "final")]],
     ["processing"]).
Proof. reflexivity. Qed.

Lemma stored_embeddings_have_column_dimension_witness :
  Forall (fun c => forall e, chunks_embedding c = Some e -> length e = 3072)
         (chunks populated_database)
  /\ insert_chunks 0%Z (Some "M") None (Some 0%Z) (Some 1%Z) None
       (Some "short") (Some [1%Z; 2%Z]) populated_database
     = Err (dimension_mismatch 3072 2).
Proof.
  destruct (@stored_embeddings_have_column_dimension integer_numeric)
    as [Hstored Hrefused].
  split.
  - apply Forall_forall. intros c Hc e He.
    apply (Hstored populated_database populated_database_reachable c e Hc He).
  - apply Hrefused. simpl. lia.
Defined.

Lemma dependent_rows_reference_meetings_witness :
  foreign_keys_valid populated_database.
Proof.
  apply dependent_rows_reference_meetings.
  apply (run_reachable 0%Z populated_script empty_database);
    [apply reachable_empty | reflexivity].
Defined.


Lemma kinds_and_job_statuses_enumerated_witness :
  (forall f, In f (files populated_database) ->
     In (files_kind f) ["upload"; "narration"; "summary"; "other"])
  /\ (forall j, In j (asr_jobs populated_database) ->
        In (asr_jobs_status j) ["queued"; "processing"; "completed"; "error"])
  /\ update_asr_jobs 5%Z "assemblyai_abc123" (set_asr_job_status "done")
       populated_database
     = Err (check_violation "asr_jobs_status_check")
  /\ update_files 1%Z (set_file_kind "video") populated_database
     = Err (check_violation "files_kind_check").
Proof.
  destruct (@kinds_and_job_statuses_enumerated integer_numeric)
    as (Hinv & _ & Hjob & Hfile).
  destruct (Hinv populated_database) as [Hf Hj].
  { apply (run_reachable 0%Z populated_script empty_database);
      [apply reachable_empty | reflexivity]. }
  split; [exact Hf|]. split; [exact Hj|]. split.
  - apply Hjob; [|reflexivity]. simpl. intuition discriminate.
  - eapply Hfile;
      [simpl; intuition discriminate | left; reflexivity | reflexivity].
Defined.

(* ================================================================== *)
(** * match_chunks: nearest rows, smaller counts, unchanged candidates *)
(* ================================================================== *)

Lemma StronglySorted_firstn_skipn {A : Type} (R : A -> A -> Prop)
  (l : list A) :
  StronglySorted R l ->
  forall n x y, In x (firstn n l) -> In y (skipn n l) -> R x y.
Proof.
  induction 1 as [|a l Hs IH Ha]; intros n x y Hx Hy.
  - rewrite firstn_nil in Hx. contradiction.
  - destruct n as [|n]; simpl in Hx, Hy; [contradiction|].
    destruct Hx as [<-|Hx].
    + rewrite Forall_forall in Ha. apply Ha.
      rewrite <- (firstn_skipn n l). apply in_or_app. right. exact Hy.
    + apply (IH n x y Hx Hy).
Qed.

Section Candidates.

Context {N : PgNumeric}.

Lemma filter_where_other_meeting (m deleted : uuid) (cs : list chunks_row) :
  uuid_eqb deleted m = false ->
  filter (match_chunks_where m)
    (filter (fun r => negb (uuid_eqb (chunks_meeting_id r) deleted)) cs)
  = filter (match_chunks_where m) cs.
Proof.
  intros Hne. induction cs as [|c cs IH]; simpl; [reflexivity|].
  destruct (uuid_eqb (chunks_meeting_id c) deleted) eqn:Ed; simpl.
  - rewrite IH. unfold match_chunks_where.
    apply String.eqb_eq in Ed. rewrite Ed, Hne. reflexivity.
  - rewrite IH. reflexivity.
Qed.

Lemma filter_where_deleted (M : uuid) (cs : list chunks_row) :
  filter (match_chunks_where M)
    (filter (fun r => negb (uuid_eqb (chunks_meeting_id r) M)) cs) = [].
Proof.
  induction cs as [|c cs IH]; simpl; [reflexivity|].
  destruct (uuid_eqb (chunks_meeting_id c) M) eqn:E; simpl; [exact IH|].
  unfold match_chunks_where at 1. rewrite E. simpl. exact IH.
Qed.

(** A statement that is not one of [may_change_candidates] leaves the
    chunks WHERE keeps for [m] as they were. *)
Lemma execute_same_candidates (now : timestamptz) (st : statement)
  (db db' : database) (m : uuid) :
  execute now st db = Ok db' ->
  may_change_candidates m st = false ->
  filter (match_chunks_where m) (chunks db')
  = filter (match_chunks_where m) (chunks db).
Proof.
  intros H Hst.
  destruct st; simpl in H, Hst; try discriminate Hst;
    try (unfold_statement H; invert_ok H; reflexivity).
  - rewrite delete_meetings_cascades in H. invert_ok H; [|reflexivity].
    simpl. apply filter_where_other_meeting. exact Hst.
  - unfold insert_chunks in H. invert_ok H. simpl.
    rewrite filter_app. simpl.
    match goal with
    | Hs : store_vector _ _ = Ok _ |- _ =>
        destruct (store_vector_ok _ _ _ Hs) as [-> _]
    end.
    match goal with
    | Hn : not_null "meeting_id" ?mid = Ok _ |- _ =>
        destruct mid as [m'|]; simpl in Hn; [|discriminate Hn];
        inversion Hn; subst
    end.
    unfold match_chunks_where at 2. simpl.
    match goal with
    | |- context [is_not_null ?e] => destruct e as [v|]; simpl
    end.
    + rewrite Hst. simpl. apply app_nil_r.
    + rewrite andb_false_r. apply app_nil_r.
Qed.

(** X7.  The chunks a search in meeting [m] chooses from, and their
    number, are the same after any statement of another table, any insert
    of a chunk without embedding or of another meeting, and any delete of
    another meeting. *)
Theorem candidates_unchanged_by_other_statements (now : timestamptz)
  (st : statement) (db db' : database) (m : uuid) :
  execute now st db = Ok db' ->
  may_change_candidates m st = false ->
  (forall c, candidate db' m c <-> candidate db m c)
  /\ embedded_chunk_count m (chunks db')
     = embedded_chunk_count m (chunks db).
Proof.
  intros H Hst.
  pose proof (execute_same_candidates now st db db' m H Hst) as Hsame.
  split.
  - intros c. unfold candidate. rewrite <- !filter_In, Hsame. reflexivity.
  - rewrite <- !filter_where_length, Hsame. reflexivity.
Qed.

(** X9.  A negative [match_count] makes every call fail at LIMIT, whatever
    the table, the query vector and the meeting. *)
Theorem match_chunks_negative_count_raises (db : database) (q : vector)
  (m : uuid) (K : Z) :
  (K < 0)%Z -> match_chunks db q m K = Err limit_must_not_be_negative.
Proof. apply match_chunks_negative_count. Qed.

(** In this embedding, where ORDER BY is one fixed sort, the call with a
    smaller count returns a prefix. *)
Lemma match_chunks_prefix (db : database) (q : vector) (m : uuid) (K K' : Z)
  (rows' : list match_chunks_row) :
  (0 <= K <= K')%Z ->
  match_chunks db q m K' = Ok rows' ->
  match_chunks db q m K = Ok (firstn (Z.to_nat K) rows').
Proof.
  intros [HK HK'] H. unfold match_chunks in *.
  rewrite limit_count_nonneg in H by lia.
  rewrite limit_count_nonneg by lia. unfold bind in *.
  assert (Hle : Z.to_nat K <= Z.to_nat K') by lia.
  destruct (map_result _ (filter (match_chunks_where m) (chunks db)))
    as [keyed_rows|].
  - set (sorted := order_by _ keyed_rows) in *.
    assert (Hrows : rows' = map (fun dc => match_chunks_select (fst dc)
                                             (snd dc))
                              (firstn (Z.to_nat K') sorted)).
    { destruct (Z.to_nat K'); injection H as <-; reflexivity. }
    rewrite Hrows, <- (firstn_map _ (Z.to_nat K') sorted), firstn_firstn,
      Nat.min_l, firstn_map by exact Hle.
    destruct (Z.to_nat K); reflexivity.
  - destruct (Z.to_nat K') as [|k']; [|discriminate H].
    destruct (Z.to_nat K) as [|k]; [|lia].
    injection H as <-. reflexivity.
Qed.

(** X6.  Asking for fewer rows shows the same scores: when the call with
    [K'] succeeds, the call with a smaller count [K >= 0] succeeds too,
    returns [min K n] rows ([n] being the number of rows of the larger
    call), and their similarities are, in order, the first similarities of
    the larger call.  Which of several chunks at one distance is returned
    is not promised and not stated. *)
Theorem match_chunks_smaller_count_same_scores (db : database) (q : vector)
  (m : uuid) (K K' : Z) (rows' : list match_chunks_row) :
  (0 <= K <= K')%Z ->
  match_chunks db q m K' = Ok rows' ->
  exists rows,
    match_chunks db q m K = Ok rows
    /\ length rows = Nat.min (Z.to_nat K) (length rows')
    /\ map similarity rows = firstn (Z.to_nat K) (map similarity rows').
Proof.
  intros HK H. exists (firstn (Z.to_nat K) rows').
  split; [exact (match_chunks_prefix db q m K K' rows' HK H)|].
  split; [apply length_firstn | symmetry; apply firstn_map].
Qed.

(** X12.  After a meeting is deleted, a search in it finds nothing: the
    call returns the empty result for every query vector and count
    [K >= 0]. *)
Theorem match_chunks_after_delete (db db' : database) (q : vector)
  (M : uuid) (K : Z) :
  meeting_exists db M = true -> (0 <= K)%Z ->
  delete_meetings M db = Ok db' ->
  match_chunks db' q M K = Ok [].
Proof.
  intros Hex HK H. rewrite delete_meetings_cascades, Hex in H.
  inversion H. apply match_chunks_no_candidate; [exact HK|]. simpl.
  rewrite <- filter_where_length, filter_where_deleted. reflexivity.
Qed.

End Candidates.

Section Nearest.

Context {N : PgNumeric} {O : PgNumericOrder N}.

Lemma select_keyed (q : vector) (c : chunks_row) (e : vector) :
  chunks_embedding c = Some e ->
  match_chunks_select (fst (keyed q c)) (snd (keyed q c)) = row_of_chunk q c e.
Proof.
  intros He. unfold keyed, chunk_distance, row_of_chunk. simpl.
  rewrite He. reflexivity.
Qed.

Lemma candidate_sorted (db : database) (q : vector) (m : uuid)
  (c : chunks_row) (e : vector) :
  In c (chunks db) -> chunks_meeting_id c = m -> chunks_embedding c = Some e ->
  In (keyed q c)
     (order_by key_le
        (map (keyed q) (filter (match_chunks_where m) (chunks db)))).
Proof.
  intros Hc Hm He. apply order_by_In. apply in_map. apply filter_In.
  split; [exact Hc|]. apply match_chunks_where_true.
  split; [exact Hm | exists e; exact He].
Qed.

Lemma typed_same_dimension (db : database) (q : vector) (m : uuid) :
  reachable db -> length q = EMBEDDING_DIM ->
  forall c e, In c (chunks db) -> chunks_meeting_id c = m ->
              chunks_embedding c = Some e -> length e = length q.
Proof.
  intros Hr Hq c e Hc _ He. rewrite Hq.
  exact (reachable_embeddings_typed db Hr c e Hc He).
Qed.

(** With a count that covers the candidates, every candidate is returned. *)
Lemma match_chunks_complete (db : database) (q : vector) (m : uuid) (K : Z) :
  reachable db -> length q = EMBEDDING_DIM ->
  (Z.of_nat (embedded_chunk_count m (chunks db)) <= K)%Z ->
  exists rows,
    match_chunks db q m K = Ok rows
    /\ length rows = embedded_chunk_count m (chunks db)
    /\ forall c e,
         In c (chunks db) -> chunks_meeting_id c = m ->
         chunks_embedding c = Some e -> In (row_of_chunk q c e) rows.
Proof.
  intros Hr Hq HK.
  rewrite (match_chunks_eval db q m K); [|lia|].
  2:{ apply typed_same_dimension; assumption. }
  rewrite firstn_all2.
  2:{ rewrite order_by_length, length_map, filter_where_length. lia. }
  eexists. split; [reflexivity|]. split.
  - rewrite length_map, order_by_length, length_map, filter_where_length.
    reflexivity.
  - intros c e Hc Hm He. rewrite <- (select_keyed q c e He).
    apply (in_map (fun dc => match_chunks_select (fst dc) (snd dc))).
    apply (candidate_sorted db q m c e Hc Hm He).
Qed.

(** X8.  When the count is at least the number of chunks of the meeting
    that have an embedding, the search leaves none of them out: each one
    is returned, with its columns and its similarity. *)
Theorem match_chunks_returns_every_embedded_chunk (db : database)
  (q : vector) (m : uuid) (K : Z) :
  reachable db -> length q = 3072 ->
  (Z.of_nat (embedded_chunk_count m (chunks db)) <= K)%Z ->
  exists rows,
    match_chunks db q m K = Ok rows
    /\ length rows = embedded_chunk_count m (chunks db)
    /\ forall c e,
         In c (chunks db) -> chunks_meeting_id c = m ->
         chunks_embedding c = Some e -> In (row_of_chunk q c e) rows.
Proof. apply match_chunks_complete. Qed.

(** X5.  The rows returned are the nearest ones: a chunk of the meeting
    with an embedding is either returned, or at least as far from the query
    as every returned row. *)
Theorem match_chunks_leaves_out_no_nearer_chunk (db : database) (q : vector)
  (m : uuid) (K : Z) :
  reachable db -> length q = 3072 -> (0 <= K)%Z ->
  exists rows,
    match_chunks db q m K = Ok rows
    /\ forall c e,
         In c (chunks db) -> chunks_meeting_id c = m ->
         chunks_embedding c = Some e ->
         In (row_of_chunk q c e) rows
         \/ forall r, In r rows ->
              exists d, row_distance q r = Some d
                        /\ float8_le d (vector_cosine e q) = true.
Proof.
  intros Hr Hq HK.
  rewrite (match_chunks_eval db q m K HK);
    [|apply typed_same_dimension; assumption].
  eexists. split; [reflexivity|].
  intros c e Hc Hm He.
  pose proof (candidate_sorted db q m c e Hc Hm He) as Hin.
  rewrite <- (firstn_skipn (Z.to_nat K)) in Hin.
  apply in_app_or in Hin. destruct Hin as [Hin|Hin].
  - left. rewrite <- (select_keyed q c e He).
    apply (in_map (fun dc => match_chunks_select (fst dc) (snd dc))).
    exact Hin.
  - right. intros r Hrow. apply in_map_iff in Hrow.
    destruct Hrow as [dc [<- Hdc]].
    assert (Hle : holds key_le dc (keyed q c)).
    { apply (StronglySorted_firstn_skipn (holds key_le) _
               (order_by_sorted key_le key_le_total key_le_trans _)
               (Z.to_nat K) dc (keyed q c) Hdc Hin). }
    apply In_firstn in Hdc. apply order_by_In in Hdc.
    apply in_map_iff in Hdc. destruct Hdc as [c' [<- Hc']].
    apply filter_In in Hc'. destruct Hc' as [_ Hw].
    apply match_chunks_where_true in Hw. destruct Hw as [_ [e' He']].
    unfold holds, key_le, keyed, chunk_distance in Hle. simpl in Hle.
    rewrite He, He' in Hle. simpl in Hle.
    exists (vector_cosine e' q). split; [|exact Hle].
    unfold row_distance, keyed. simpl. rewrite He'. reflexivity.
Qed.

Lemma embedded_chunk_count_app (m : uuid) (cs cs' : list chunks_row) :
  embedded_chunk_count m (cs ++ cs')
  = embedded_chunk_count m cs + embedded_chunk_count m cs'.
Proof.
  rewrite <- !filter_where_length, filter_app, length_app. reflexivity.
Qed.

(** X11.  A chunk inserted with an embedding is found: after the INSERT
    succeeds, a search in its meeting with a count above the number of
    chunks the meeting had returns a row with the serial id the insert
    drew, the text, the time-span and the embedding that were inserted,
    and [1 - distance] as similarity. *)
Theorem inserted_chunk_is_found (now : timestamptz) (m : uuid)
  (sp tp : option string) (st en : float8) (tx : string) (e q : vector)
  (db db' : database) (K : Z) :
  reachable db -> length q = 3072 ->
  insert_chunks now (Some m) sp (Some st) (Some en) tp (Some tx) (Some e) db
  = Ok db' ->
  (Z.of_nat (embedded_chunk_count m (chunks db)) < K)%Z ->
  exists rows r,
    match_chunks db' q m K = Ok rows /\ In r rows
    /\ id r = chunks_id_seq db /\ meeting_id r = m
    /\ start_seconds r = st /\ end_seconds r = en /\ text r = tx
    /\ embedding r = Some e
    /\ similarity r = Some (float8_mi float8_one (vector_cosine e q)).
Proof.
  intros Hr Hq Hins HK.
  assert (Hr' : reachable db').
  { apply (reachable_step db now
             (INSERT_chunks (Some m) sp (Some st) (Some en) tp (Some tx)
                (Some e)) db' Hr).
    exact Hins. }
  assert (Hnew : chunks db' = chunks db ++
            [{| chunks_id := chunks_id_seq db; chunks_meeting_id := m;
                chunks_speaker := sp; chunks_start_seconds := st;
                chunks_end_seconds := en; chunks_topic := tp;
                chunks_text := tx; chunks_embedding := Some e;
                chunks_created_at := now |}]).
  { unfold insert_chunks in Hins. invert_ok Hins. simpl.
    match goal with
    | Hs : store_vector _ _ = Ok _ |- _ =>
        destruct (store_vector_ok _ _ _ Hs) as [-> _]
    end.
    reflexivity. }
  destruct (match_chunks_complete db' q m K Hr' Hq) as [rows [Hrows [_ Hall]]].
  { rewrite Hnew, embedded_chunk_count_app. simpl.
    unfold uuid_eqb. rewrite String.eqb_refl. lia. }
  set (c := {| chunks_id := chunks_id_seq db; chunks_meeting_id := m;
               chunks_speaker := sp; chunks_start_seconds := st;
               chunks_end_seconds := en; chunks_topic := tp;
               chunks_text := tx; chunks_embedding := Some e;
               chunks_created_at := now |}) in Hnew.
  exists rows, (row_of_chunk q c e). split; [exact Hrows|]. split.
  - apply (Hall c e); [|reflexivity|reflexivity].
    rewrite Hnew. apply in_or_app. right. left. reflexivity.
  - simpl. repeat split.
Qed.

End Nearest.

(* ================================================================== *)
(** * setup.sql: updates *)
(* ================================================================== *)

Lemma map_result_unchanged {A : Type} (f : A -> result A) (l : list A) :
  (forall a, In a l -> f a = Ok a) -> map_result f l = Ok l.
Proof.
  intros H. rewrite (map_result_map f (fun a => a) l H), map_id.
  reflexivity.
Qed.

Section Updates.

Context {N : PgNumeric}.

(** X10.  [UPDATE meetings SET ... WHERE id = x], whatever columns it
    assigns, touches the meetings with that id and nothing else: a meeting
    with another id is in the table afterwards as it was; every other
    meeting of the table afterwards comes from one that had the id and has
    [updated_at = NOW()] from the trigger, also when the statement assigns
    [updated_at] itself; the table has as many rows as before; the five
    other tables are not written; and when no meeting has the id the
    statement succeeds and the database is the same. *)
Theorem update_meetings_touches_only_its_row (now : timestamptz) (x : uuid)
  (a : meetings_assignment) (db : database) :
  (forall db',
     update_meetings now x a db = Ok db' ->
     (forall old, In old (meetings db) -> meetings_id old <> x ->
                  In old (meetings db'))
     /\ (forall new, In new (meetings db') ->
           (In new (meetings db) /\ meetings_id new <> x)
           \/ (meetings_updated_at new = now
               /\ exists old, In old (meetings db) /\ meetings_id old = x))
     /\ length (meetings db') = length (meetings db)
     /\ files db' = files db /\ utterances db' = utterances db
     /\ chunks db' = chunks db /\ summaries db' = summaries db
     /\ asr_jobs db' = asr_jobs db)
  /\ (meeting_exists db x = false -> update_meetings now x a db = Ok db).
Proof.
  split.
  - intros db' H.
    destruct (update_meetings_keys _ _ _ _ _ H) as (_ & _ & Hrest).
    unfold update_meetings in H. invert_ok H. simpl in *.
    split; [|split; [|split; [|exact Hrest]]].
    + intros old Hold Hne. apply (map_result_image _ _ _ old old E Hold).
      unfold uuid_eqb. apply String.eqb_neq in Hne. rewrite Hne.
      reflexivity.
    + intros new Hnew.
      destruct (map_result_In _ _ _ _ E Hnew) as [old [Hold Hf]].
      simpl in Hf. destruct (uuid_eqb (meetings_id old) x) eqn:Ex.
      * right. split.
        -- apply (update_meetings_row_key now a old new Hf).
        -- exists old. split; [exact Hold|]. apply String.eqb_eq. exact Ex.
      * left. inversion Hf. subst new.
        split; [exact Hold|]. apply String.eqb_neq. exact Ex.
    + apply (map_result_length _ _ _ E).
  - intros Hex. unfold update_meetings.
    rewrite map_result_unchanged.
    + unfold meetings_new_key. rewrite Hex.
      destruct (set_id a) as [|[k|]]; destruct db; reflexivity.
    + intros m Hm.
      destruct (uuid_eqb (meetings_id m) x) eqn:Ex; [|reflexivity].
      unfold meeting_exists in Hex.
      assert (Ht : existsb (fun m0 => uuid_eqb (meetings_id m0) x)
                     (meetings db) = true).
      { apply existsb_exists. exists m. split; assumption. }
      congruence.
Qed.

(** The rows of a table after an UPDATE, row by row. *)
Lemma update_selected_rows {row : Type} (selected : row -> bool)
  (f : row -> result row) (rows rows' : list row) :
  map_result (fun r => if selected r then f r else Ok r) rows = Ok rows' ->
  (forall old, In old rows -> selected old = false -> In old rows')
  /\ (forall new, In new rows' ->
        (In new rows /\ selected new = false)
        \/ exists old, In old rows /\ selected old = true /\ f old = Ok new)
  /\ length rows' = length rows.
Proof.
  intros H. split; [|split].
  - intros old Hold Hsel. apply (map_result_image _ _ _ old old H Hold).
    rewrite Hsel. reflexivity.
  - intros new Hnew.
    destruct (map_result_In _ _ _ _ H Hnew) as [old [Hold Hf]].
    simpl in Hf. destruct (selected old) eqn:Hsel.
    + right. exists old. auto.
    + left. inversion Hf. subst new. auto.
  - apply (map_result_length _ _ _ H).
Qed.

(** X16.  The triggers of [summaries] and [asr_jobs]: an UPDATE by key,
    whatever columns it assigns, leaves the rows with another key in the
    table as they were; every other row of the table afterwards comes from
    a row that had the key and has [updated_at = NOW()], also when the
    statement assigns [updated_at] itself; the table has as many rows as
    before; and the other tables are not written. *)
Theorem updated_at_follows_every_update (now : timestamptz)
  (db : database) :
  (forall M a db',
     update_summaries now M a db = Ok db' ->
     (forall old, In old (summaries db) -> summaries_meeting_id old <> M ->
                  In old (summaries db'))
     /\ (forall new, In new (summaries db') ->
           (In new (summaries db) /\ summaries_meeting_id new <> M)
           \/ (summaries_updated_at new = now
               /\ exists old, In old (summaries db)
                              /\ summaries_meeting_id old = M))
     /\ length (summaries db') = length (summaries db)
     /\ meetings db' = meetings db /\ files db' = files db
     /\ utterances db' = utterances db /\ chunks db' = chunks db
     /\ asr_jobs db' = asr_jobs db)
  /\ (forall id a db',
        update_asr_jobs now id a db = Ok db' ->
        (forall old, In old (asr_jobs db) -> asr_jobs_id old <> id ->
                     In old (asr_jobs db'))
        /\ (forall new, In new (asr_jobs db') ->
              (In new (asr_jobs db) /\ asr_jobs_id new <> id)
              \/ (asr_jobs_updated_at new = now
                  /\ exists old, In old (asr_jobs db)
                                 /\ asr_jobs_id old = id))
        /\ length (asr_jobs db') = length (asr_jobs db)
        /\ meetings db' = meetings db /\ files db' = files db
        /\ utterances db' = utterances db /\ chunks db' = chunks db
        /\ summaries db' = summaries db).
Proof.
  split.
  - intros M a db' H. unfold update_summaries in H. invert_ok H. simpl.
    destruct (update_selected_rows _ _ _ _ E) as (Hkept & Hnew & Hlen).
    split; [|split; [|split; [exact Hlen | repeat split]]].
    + intros old Hold Hne. apply Hkept; [exact Hold|].
      apply String.eqb_neq. exact Hne.
    + intros new Hin. destruct (Hnew new Hin) as [[Hold Hsel]|[old Hold]].
      * left. split; [exact Hold|]. apply String.eqb_neq. exact Hsel.
      * right. destruct Hold as (Hold & Hsel & Hf). split.
        -- apply (update_summaries_row_key now a old new Hf).
        -- exists old. split; [exact Hold|]. apply String.eqb_eq. exact Hsel.
  - intros id0 a db' H. unfold update_asr_jobs in H. invert_ok H. simpl.
    destruct (update_selected_rows _ _ _ _ E) as (Hkept & Hnew & Hlen).
    split; [|split; [|split; [exact Hlen | repeat split]]].
    + intros old Hold Hne. apply Hkept; [exact Hold|].
      apply String.eqb_neq. exact Hne.
    + intros new Hin. destruct (Hnew new Hin) as [[Hold Hsel]|[old Hold]].
      * left. split; [exact Hold|]. apply String.eqb_neq. exact Hsel.
      * right. destruct Hold as (Hold & Hsel & Hf). split.
        -- apply (update_asr_jobs_row_key now a old new Hf).
        -- exists old. split; [exact Hold|]. apply String.eqb_eq. exact Hsel.
Qed.

End Updates.

(* ------------------------------------------------------------------ *)
(** ** The same facts on the populated example *)

Lemma candidates_unchanged_by_other_statements_witness :
  exists db',
    execute 7%Z
      (INSERT_utterances (N := integer_numeric) (Some "M")
         (Some "SPEAKER_1") (Some 2%Z) (Some 5%Z)
         (Some "Hi! Let us get started."))
      populated_database = Ok db'
    /\ (forall c, candidate db' "M" c <-> candidate populated_database "M" c)
    /\ embedded_chunk_count "M" (chunks db')
       = embedded_chunk_count "M" (chunks populated_database).
Proof.
  eexists. split.
  - reflexivity.
  - apply (candidates_unchanged_by_other_statements 7%Z
             (INSERT_utterances (N := integer_numeric) (Some "M")
                (Some "SPEAKER_1") (Some 2%Z) (Some 5%Z)
                (Some "Hi! Let us get started."))
             populated_database).
    + reflexivity.
    + reflexivity.
Defined.

Lemma match_chunks_negative_count_raises_witness :
  match_chunks populated_database origin "M" (-3)
  = Err limit_must_not_be_negative.
Proof.
  apply (match_chunks_negative_count_raises populated_database origin "M").
  lia.
Defined.

Lemma match_chunks_smaller_count_same_scores_witness :
  exists rows' rows,
    match_chunks populated_database origin "M" 5 = Ok rows'
    /\ match_chunks populated_database origin "M" 1 = Ok rows
    /\ length rows = Nat.min (Z.to_nat 1) (length rows')
    /\ map similarity rows = firstn (Z.to_nat 1) (map similarity rows').
Proof.
  eexists.
  assert (H5 : match_chunks populated_database origin "M" 5 = Ok _)
    by reflexivity.
  destruct (match_chunks_smaller_count_same_scores populated_database origin
              "M" 1 5 _ ltac:(lia) H5) as [rows Hrows].
  exists rows. split; [exact H5 | exact Hrows].
Defined.

Lemma match_chunks_after_delete_witness :
  exists db',
    delete_meetings "M" populated_database = Ok db'
    /\ match_chunks db' origin "M" 5 = Ok [].
Proof.
  eexists. split.
  - reflexivity.
  - apply (match_chunks_after_delete populated_database _ origin "M" 5).
    + reflexivity.
    + lia.
    + reflexivity.
Defined.

Lemma match_chunks_returns_every_embedded_chunk_witness :
  exists rows,
    match_chunks populated_database origin "M" 5 = Ok rows
    /\ length rows = embedded_chunk_count "M" (chunks populated_database)
    /\ forall c e,
         In c (chunks populated_database) -> chunks_meeting_id c = "M" ->
         chunks_embedding c = Some e -> In (row_of_chunk origin c e) rows.
Proof.
  apply (match_chunks_returns_every_embedded_chunk populated_database origin
           "M" 5).
  - apply (run_reachable 0%Z populated_script empty_database);
      [apply reachable_empty | reflexivity].
  - apply repeat_length.
  - simpl. lia.
Defined.

Lemma match_chunks_leaves_out_no_nearer_chunk_witness :
  exists rows,
    match_chunks populated_database origin "M" 1 = Ok rows
    /\ forall c e,
         In c (chunks populated_database) -> chunks_meeting_id c = "M" ->
         chunks_embedding c = Some e ->
         In (row_of_chunk origin c e) rows
         \/ forall r, In r rows ->
              exists d, row_distance origin r = Some d
                        /\ float8_le d (vector_cosine e origin) = true.
Proof.
  apply (match_chunks_leaves_out_no_nearer_chunk populated_database origin
           "M" 1).
  - apply (run_reachable 0%Z populated_script empty_database);
      [apply reachable_empty | reflexivity].
  - apply repeat_length.
  - lia.
Defined.

Lemma inserted_chunk_is_found_witness :
  exists db' rows r,
    insert_chunks 9%Z (Some "M") None (Some 160%Z) (Some 210%Z) None
      (Some "Next steps and owners.") (Some (shifted 2)) populated_database
    = Ok db'
    /\ match_chunks db' origin "M" 5 = Ok rows /\ In r rows
    /\ id r = chunks_id_seq populated_database /\ meeting_id r = "M"
    /\ start_seconds r = 160%Z /\ end_seconds r = 210%Z
    /\ text r = "Next steps and owners."
    /\ embedding r = Some (shifted 2)
    /\ similarity r
       = Some (float8_mi float8_one (vector_cosine (shifted 2) origin)).
Proof.
  eexists.
  assert (Hins : insert_chunks 9%Z (Some "M") None (Some 160%Z) (Some 210%Z)
                   None (Some "Next steps and owners.") (Some (shifted 2))
                   populated_database = Ok _) by reflexivity.
  assert (Hreach : reachable populated_database).
  { apply (run_reachable 0%Z populated_script empty_database);
      [apply reachable_empty | reflexivity]. }
  assert (Hlen : length origin = 3072) by apply repeat_length.
  assert (Hlt : (Z.of_nat (embedded_chunk_count "M"
                             (chunks populated_database)) < 5)%Z)
    by (simpl; lia).
  destruct (inserted_chunk_is_found (N := integer_numeric) 9%Z "M" None None
              160%Z 210%Z "Next steps and owners." (shifted 2) origin
              populated_database _ 5 Hreach Hlen Hins Hlt)
    as [rows [r Hfound]].
  exists rows, r. split; [exact Hins | exact Hfound].
Defined.

Example inserted_chunk_is_ranked_second :
  match insert_chunks 9%Z (Some "M") None (Some 160%Z) (Some 210%Z) None
          (Some "Next steps and owners.") (Some (shifted 2))
          populated_database with
  | Ok db' =>
      match match_chunks db' origin "M" 5 with
      | Ok rows => map id rows
      | Err _ => []
      end
  | Err _ => []
  end = [3%Z; 4%Z; 1%Z].
Proof. reflexivity. Qed.

Lemma update_meetings_touches_only_its_row_witness :
  exists db',
    update_meetings 3%Z "M" (set_meeting_status "indexed") populated_database
    = Ok db'
    /\ (forall old, In old (meetings populated_database) ->
                    meetings_id old <> "M" -> In old (meetings db'))
    /\ (forall new, In new (meetings db') ->
          (In new (meetings populated_database) /\ meetings_id new <> "M")
          \/ (meetings_updated_at new = 3%Z
              /\ exists old, In old (meetings populated_database)
                             /\ meetings_id old = "M"))
    /\ length (meetings db') = length (meetings populated_database)
    /\ chunks db' = chunks populated_database
    /\ update_meetings 3%Z "nobody" (set_meeting_status "indexed")
         populated_database
       = Ok populated_database.
Proof.
  eexists.
  assert (Hup : update_meetings 3%Z "M" (set_meeting_status "indexed")
                  populated_database = Ok _) by reflexivity.
  destruct (update_meetings_touches_only_its_row (N := integer_numeric) 3%Z
              "M" (set_meeting_status "indexed") populated_database)
    as [Hrows _].
  destruct (Hrows _ Hup) as (Hkept & Hnew & Hlen & _ & _ & Hchunks & _).
  split; [exact Hup|]. split; [exact Hkept|]. split; [exact Hnew|].
  split; [exact Hlen|]. split; [exact Hchunks|].
  apply (update_meetings_touches_only_its_row (N := integer_numeric) 3%Z
           "nobody").
  reflexivity.
Defined.

(** The status of [M] is set and its [updated_at] moves to the clock; an
    attempt to move the key of [M], which its chunks reference, is
    refused. *)
Lemma updated_at_follows_every_update_witness :
  exists db',
    update_summaries 4%Z "M"
      (set_summary_payload
         (jsonb_object [("overview", jsonb_string "revised")]))
      populated_database = Ok db'
    /\ (forall new, In new (summaries db') ->
          (In new (summaries populated_database)
           /\ summaries_meeting_id new <> "M")
          \/ (summaries_updated_at new = 4%Z
              /\ exists old, In old (summaries populated_database)
                             /\ summaries_meeting_id old = "M"))
    /\ length (summaries db') = length (summaries populated_database)
    /\ asr_jobs db' = asr_jobs populated_database.
Proof.
  eexists.
  assert (Hup : update_summaries 4%Z "M"
                  (set_summary_payload
                     (jsonb_object [("overview", jsonb_string "revised")]))
                  populated_database = Ok _) by reflexivity.
  destruct (updated_at_follows_every_update (N := integer_numeric) 4%Z
              populated_database) as [Hsummaries _].
  destruct (Hsummaries _ _ _ Hup)
    as (_ & Hnew & Hlen & _ & _ & _ & _ & Hjobs).
  split; [exact Hup|]. split; [exact Hnew|]. split; [exact Hlen|].
  exact Hjobs.
Defined.

Example update_summaries_example :
  match update_summaries 4%Z "M"
          (set_summary_payload
             (jsonb_object [("overview", jsonb_string "revised")]))
          populated_database with
  | Ok db' =>
      map (fun s => (summaries_payload s, summaries_created_at s,
                     summaries_updated_at s)) (summaries db')
  | Err _ => []
  end
  = [(jsonb_object [("overview", jsonb_string "revised")], 0%Z, 4%Z)]
  /\ insert_summaries 4%Z (Some "M") (Some jsonb_null) populated_database
     = Err (unique_violation "summaries_pkey").
Proof. split; reflexivity. Qed.

(** An embedding of another dimension is refused by [UPDATE chunks] before
    any row is looked at, here with no chunk of that id. *)
Example update_chunks_checks_the_type_first :
  update_chunks 999%Z
    {| set_chunks_meeting_id := omitted; set_chunks_speaker := omitted;
       set_chunks_start_seconds := omitted; set_chunks_end_seconds := omitted;
       set_chunks_topic := omitted; set_chunks_text := omitted;
       set_chunks_embedding := supplied (Some [1%Z; 2%Z]);
       set_chunks_created_at := omitted |}
    populated_database
  = Err (dimension_mismatch 3072 2).
Proof. reflexivity. Qed.

Example update_meetings_example :
  match update_meetings 3%Z "M" (set_meeting_status "indexed")
          populated_database with
  | Ok db' =>
      map (fun m => (meetings_id m, meetings_status m, meetings_created_at m,
                     meetings_updated_at m)) (meetings db')
  | Err _ => []
  end = [("M", "indexed", 0%Z, 3%Z); ("empty", "uploaded", 0%Z, 0%Z)]
  /\ update_meetings 3%Z "M"
       {| set_id := supplied (Some "M2"); set_title := omitted;
          set_video_url := omitted; set_consent := omitted;
          set_status := omitted; set_created_at := omitted;
          set_updated_at := omitted |}
       populated_database
     = Err (foreign_key_violation "files_meeting_id_fkey").
Proof. split; reflexivity. Qed.

(* ================================================================== *)
(** * The HTTP helpers: what is sent and how a call settles *)
(* ================================================================== *)

Section ChatFilters.

Import Js.

Variable Number : value -> number.

(** The members of [filters] in the body [askChat] posts. *)
Lemma askChat_filters_json (args : value) :
  exists body speaker time_end,
    to_json (Api.askChat_body Number args) = Some body
    /\ member body "filters"
       = Some (JObj [("speaker", speaker); ("time_start", JNull);
                     ("time_end", time_end)])
    /\ to_json (logical_or (get args "speaker") Null) = Some speaker
    /\ to_json (if truthy (get args "time_end")
                then Num (Number (get args "time_end")) else Null)
       = Some time_end.
Proof.
  unfold Api.askChat_body. rewrite JsFacts.to_json_Obj.
  destruct (JsFacts.to_json_defined
              (default (get args "k") (Num (of_Z 12)))) as [k Hk].
  { apply JsFacts.default_defined. discriminate. }
  destruct (JsFacts.to_json_defined
              (default (get args "rerank") (Bool true))) as [rr Hrr].
  { apply JsFacts.default_defined. discriminate. }
  destruct (JsFacts.to_json_defined (logical_or (get args "speaker") Null))
    as [sp Hsp].
  { apply JsFacts.or_not_undefined. discriminate. }
  destruct (JsFacts.to_json_defined
              (if truthy (get args "time_end")
               then Num (Number (get args "time_end")) else Null))
    as [te Hte].
  { destruct (truthy (get args "time_end")); discriminate. }
  eexists. exists sp, te. split; [reflexivity|].
  split; [|split; assumption].
  simpl json_members. rewrite Hk, Hrr, Hsp, Hte.
  destruct (to_json (get args "meeting_id")),
           (to_json (get args "query")); reflexivity.
Qed.

(** X13.  Whatever the caller passes, the filters [askChat] sends are
    normalised: [time_start] is always null; [time_end] is null or a
    number, and null whenever the argument is missing, empty or zero;
    [speaker] is null whenever the argument is missing or empty, and the
    caller's value otherwise. *)
Theorem askChat_filters_are_normalised (args : value)
  (req : Api.axios_request) :
  Api.askChat_request Number args = Some req ->
  exists body filters,
    Api.data req = Some body
    /\ member body "filters" = Some filters
    /\ keys filters = ["speaker"; "time_start"; "time_end"]
    /\ member filters "time_start" = Some JNull
    /\ (member filters "time_end" = Some JNull
        \/ exists n d, member filters "time_end" = Some (JNum n d))
    /\ (truthy (get args "time_end") = false ->
        member filters "time_end" = Some JNull)
    /\ (truthy (get args "speaker") = false ->
        member filters "speaker" = Some JNull)
    /\ (truthy (get args "speaker") = true ->
        member filters "speaker" = to_json (get args "speaker")).
Proof.
  intros Hreq.
  assert (Hr : Api.data req = to_json (Api.askChat_body Number args)).
  { unfold Api.askChat_request in Hreq.
    destruct args; try discriminate Hreq; injection Hreq as <-;
      reflexivity. }
  destruct (askChat_filters_json args)
    as [body [sp [te [Hbody [Hfilters [Hsp Hte]]]]]].
  exists body. eexists. split; [rewrite Hr; exact Hbody|].
  split; [exact Hfilters|]. split; [reflexivity|]. split; [reflexivity|].
  simpl. unfold logical_or in Hsp.
  split; [|split; [|split]].
  - destruct (truthy (get args "time_end")); simpl in Hte.
    + destruct (Number (get args "time_end")); simpl in Hte;
        injection Hte as <-; [left; reflexivity | right; eauto].
    + injection Hte as <-. left. reflexivity.
  - intros Et. rewrite Et in Hte. simpl in Hte. symmetry. exact Hte.
  - intros Es. rewrite Es in Hsp. simpl in Hsp. symmetry. exact Hsp.
  - intros Es. rewrite Es in Hsp. symmetry. exact Hsp.
Qed.

End ChatFilters.

Section IndexRequests.

Import Js.

(** X14.  The two [buildIndex] helpers send the same JSON: a body with the
    one member [meeting_id] when the argument is not [undefined], and the
    empty object when it is; both use POST. *)
Theorem buildIndex_bodies_agree (meeting_id : value) :
  (forall api,
     Api.buildIndex api meeting_id
     = then_ (api {| Api.method := "post"; Api.url := "/index";
                     Api.params := [];
                     Api.data := Client.body
                                   (Client.buildIndex_options meeting_id) |})
             Api.response_data)
  /\ Client.method (Client.buildIndex_options meeting_id) = Some "POST"
  /\ (meeting_id = Undefined ->
      Client.body (Client.buildIndex_options meeting_id) = Some (JObj []))
  /\ (meeting_id <> Undefined ->
      exists j, to_json meeting_id = Some j
                /\ Client.body (Client.buildIndex_options meeting_id)
                   = Some (JObj [("meeting_id", j)])).
Proof.
  split; [reflexivity|]. split; [reflexivity|]. split.
  - intros ->. reflexivity.
  - intros Hdef. destruct (JsFacts.to_json_defined meeting_id Hdef) as [j Hj].
    exists j. split; [exact Hj|].
    unfold Client.buildIndex_options. cbn [Client.body].
    rewrite JsFacts.to_json_Obj. simpl. rewrite Hj. reflexivity.
Qed.

(** X15.  A call of [chat] or [buildIndex] settles in one of three ways: a
    failure of [fetch] itself is passed on as it is; a response that is
    not ok rejects with the status code and status text; a response that is
    ok resolves, to the parsed body or to [{}], and never rejects. *)
Theorem fetch_helpers_settle
  (fetch : string -> Client.fetch_options -> promise Client.response)
  (API_BASE : string) (meetingId query : value) :
  let chat_call := fetch (Client.ENDPOINTS_chat API_BASE)
                     (Client.chat_options meetingId query) in
  let index_call := fetch (Client.ENDPOINTS_index API_BASE)
                      (Client.buildIndex_options meetingId) in
  let settled (call : promise Client.response) (result : promise value) :=
    (forall e, call = rejected e -> result = rejected e)
    /\ (forall res, call = fulfilled res -> Client.ok res = false ->
          result = rejected
                     (Error (NilZero.string_of_uint
                               (Nat.to_uint (Client.status res))
                             ++ " " ++ Client.statusText res)%string))
    /\ (forall res, call = fulfilled res -> Client.ok res = true ->
          exists v, result = fulfilled v
                    /\ (Client.json_body res = fulfilled v
                        \/ (v = Obj []
                            /\ exists e, Client.json_body res = rejected e)))
  in
  settled chat_call (Client.chat fetch API_BASE meetingId query)
  /\ settled index_call (Client.buildIndex fetch API_BASE meetingId).
Proof.
  assert (Hreq : forall url options,
            (forall e, fetch url options = rejected e ->
                       Client.request fetch url options = rejected e)
            /\ (forall res, fetch url options = fulfilled res ->
                  Client.ok res = false ->
                  Client.request fetch url options
                  = rejected
                      (Error (NilZero.string_of_uint
                                (Nat.to_uint (Client.status res))
                              ++ " " ++ Client.statusText res)%string))
            /\ (forall res, fetch url options = fulfilled res ->
                  Client.ok res = true ->
                  exists v,
                    Client.request fetch url options = fulfilled v
                    /\ (Client.json_body res = fulfilled v
                        \/ (v = Obj []
                            /\ exists e,
                                 Client.json_body res = rejected e)))).
  { intros url options. unfold Client.request, Client.request_response.
    split; [|split].
    - intros e ->. reflexivity.
    - intros res -> ->. reflexivity.
    - intros res -> ->. simpl.
      destruct (Client.json_body res) as [v|e].
      + exists v. split; [reflexivity | left; reflexivity].
      + exists (Obj []). split; [reflexivity|]. right.
        split; [reflexivity | exists e; reflexivity]. }
  split; apply Hreq.
Qed.

End IndexRequests.

Lemma askChat_filters_are_normalised_witness :
  exists req body filters,
    Api.askChat_request (fun _ => Js.finite 90 1)
      (Js.Obj [("meeting_id", Js.Str "m1"); ("query", Js.Str "Decisions?");
               ("speaker", Js.Str ""); ("time_end", Js.Str "90")])
    = Some req
    /\ Api.data req = Some body
    /\ Js.member body "filters" = Some filters
    /\ Js.member filters "speaker" = Some Js.JNull
    /\ Js.member filters "time_start" = Some Js.JNull
    /\ Js.member filters "time_end" = Some (Js.JNum 90 1).
Proof.
  eexists.
  assert (Hreq : Api.askChat_request (fun _ => Js.finite 90 1)
            (Js.Obj [("meeting_id", Js.Str "m1");
                     ("query", Js.Str "Decisions?");
                     ("speaker", Js.Str ""); ("time_end", Js.Str "90")])
            = Some _) by reflexivity.
  destruct (askChat_filters_are_normalised _ _ _ Hreq)
    as [body [filters [Hdata [Hf [_ [Hstart [_ [_ [Hsp _]]]]]]]]].
  exists body, filters. split; [exact Hreq|]. split; [exact Hdata|].
  split; [exact Hf|]. split; [apply Hsp; reflexivity|].
  split; [exact Hstart|].
  simpl in Hdata, Hf. injection Hdata as <-. simpl in Hf.
  injection Hf as <-. reflexivity.
Defined.

Lemma buildIndex_bodies_agree_witness :
  Client.body (Client.buildIndex_options Js.Undefined) = Some (Js.JObj [])
  /\ Client.body (Client.buildIndex_options (Js.Str "m1"))
     = Some (Js.JObj [("meeting_id", Js.JStr "m1")]).
Proof.
  split.
  - apply (buildIndex_bodies_agree Js.Undefined). reflexivity.
  - destruct (buildIndex_bodies_agree (Js.Str "m1")) as [_ [_ [_ H]]].
    destruct H as [j [Hj Hbody]]; [discriminate|].
    simpl in Hj. injection Hj as <-. exact Hbody.
Defined.
